(** * Duurzame Kennisbank front end

    A shallow embedding of the two front-end scripts of the repository:
    [src/script.js] (the variant that talks to the JSON API of a server) and
    the script for GitHub Pages, [src/unnamed/part_000] (the variant that
    reads [data.json] once and filters locally).

    Conventions of the embedding.
    - A JavaScript string is the list of its UTF-16 code units, each an [N].
    - An absent property ([undefined] or [null]) is [None].
    - The children of a DOM element are a list of nodes; assigning
      [innerHTML] replaces that list.
    - A function that may throw returns a [completion].
    - [String.prototype.toLowerCase] is a host function whose Unicode tables
      are no part of the repository: the filters take it from the class
      [Host]. *)

From Stdlib Require Import List NArith Bool Ascii String Lia Arith.
Import ListNotations.

Set Implicit Arguments.

(** * Part I: the model *)

(** ** JavaScript strings *)

Definition jsstring := list N.

(** A string literal of the source, all of whose characters are ASCII. *)
Definition lit (s : string) : jsstring :=
  map N_of_ascii (list_ascii_of_string s).
Arguments lit s%_string.

Definition jsstring_dec : forall a b : jsstring, {a = b} + {a <> b} :=
  list_eq_dec N.eq_dec.

(** [a === b] on strings. *)
Definition jsstring_eqb (a b : jsstring) : bool :=
  if jsstring_dec a b then true else false.

(** Truthiness of a string: only the empty string is falsy. *)
Definition truthy (s : jsstring) : bool :=
  match s with [] => false | _ :: _ => true end.

(** [o || ''] for a property that is a string when present. *)
Definition or_empty (o : option jsstring) : jsstring :=
  match o with Some s => s | None => [] end.

(** [o || []] for a property that is an array when present. *)
Definition or_nil (A : Type) (o : option (list A)) : list A :=
  match o with Some l => l | None => [] end.

(** The five reserved characters. *)
Definition AMP : N := 38.
Definition LT : N := 60.
Definition GT : N := 62.
Definition QUOT : N := 34.
Definition APOS : N := 39.

(** Completions: a call returns normally or throws. *)
Inductive Exn := TypeError | URIError.

Inductive completion (A : Type) :=
| Normal (a : A)
| Throw (e : Exn).
Arguments Throw {A} e.

Definition bind (A B : Type) (c : completion A) (k : A -> completion B)
  : completion B :=
  match c with
  | Normal a => k a
  | Throw e => Throw e
  end.

Notation "x <- c ;; k" := (bind c (fun x => k))
  (at level 61, c at next level, right associativity).

(** ** Host functions the scripts call *)

(** [String.prototype.toLowerCase]. *)
Class Host := { toLowerCase : jsstring -> jsstring }.

(** The white space and line terminators [String.prototype.trim] strips. *)
Definition isWhiteSpace (c : N) : bool :=
  existsb (N.eqb c)
    [9; 10; 11; 12; 13; 32; 160; 5760;
     8192; 8193; 8194; 8195; 8196; 8197; 8198; 8199; 8200; 8201; 8202;
     8232; 8233; 8239; 8287; 12288; 65279]%N.

Fixpoint trimStart (s : jsstring) : jsstring :=
  match s with
  | [] => []
  | c :: rest => if isWhiteSpace c then trimStart rest else s
  end.

Definition trimEnd (s : jsstring) : jsstring := rev (trimStart (rev s)).

Definition trim (s : jsstring) : jsstring := trimEnd (trimStart s).

(** [s.startsWith(t)], the test [String.prototype.includes] makes at each
    position. *)
Fixpoint startsWith (s t : jsstring) {struct t} : bool :=
  match t, s with
  | [], _ => true
  | _ :: _, [] => false
  | a :: t', b :: s' => N.eqb a b && startsWith s' t'
  end.

(** [s.includes(t)] on strings. *)
Fixpoint String_includes (s t : jsstring) : bool :=
  startsWith s t ||
  match s with
  | [] => false
  | _ :: s' => String_includes s' t
  end.

(** [l.includes(x)] on an array of strings. *)
Definition Array_includes (l : list jsstring) (x : jsstring) : bool :=
  existsb (jsstring_eqb x) l.

(** [l.join(sep)]. *)
Fixpoint join (sep : jsstring) (l : list jsstring) : jsstring :=
  match l with
  | [] => []
  | x :: rest =>
      match rest with
      | [] => x
      | _ :: _ => x ++ sep ++ join sep rest
      end
  end.

(** [encodeURIComponent]: the characters it leaves alone. *)
Definition isUnescaped (c : N) : bool :=
  ((48 <=? c) && (c <=? 57) || (65 <=? c) && (c <=? 90)
   || (97 <=? c) && (c <=? 122)
   || existsb (N.eqb c) [45; 95; 46; 33; 126; 42; 39; 40; 41])%N.

Definition hexDigit (n : N) : N :=
  (if n <? 10 then 48 + n else 55 + n)%N.

Definition percent (octet : N) : jsstring :=
  [37; hexDigit (octet / 16); hexDigit (octet mod 16)]%N.

Definition utf8 (cp : N) : list N :=
  (if cp <? 128 then [cp]
   else if cp <? 2048 then [192 + cp / 64; 128 + cp mod 64]
   else if cp <? 65536 then
     [224 + cp / 4096; 128 + (cp / 64) mod 64; 128 + cp mod 64]
   else
     [240 + cp / 262144; 128 + (cp / 4096) mod 64;
      128 + (cp / 64) mod 64; 128 + cp mod 64])%N.

Definition isLeadSurrogate (c : N) : bool := ((55296 <=? c) && (c <=? 56319))%N.
Definition isTrailSurrogate (c : N) : bool := ((56320 <=? c) && (c <=? 57343))%N.

(** [encodeURIComponent(s)]: throws [URIError] on an unpaired surrogate. *)
Fixpoint encodeURIComponent (s : jsstring) : completion jsstring :=
  match s with
  | [] => Normal []
  | c :: rest =>
      if isUnescaped c then
        r <- encodeURIComponent rest ;; Normal (c :: r)
      else if isTrailSurrogate c then Throw URIError
      else if isLeadSurrogate c then
        match rest with
        | [] => Throw URIError
        | d :: rest' =>
            if isTrailSurrogate d then
              r <- encodeURIComponent rest' ;;
              Normal (flat_map percent
                        (utf8 ((c - 55296) * 1024 + (d - 56320) + 65536)%N)
                      ++ r)
            else Throw URIError
        end
      else
        r <- encodeURIComponent rest ;;
        Normal (flat_map percent (utf8 c) ++ r)
  end.

(** ** Resources *)

Record Resource := {
  title : option jsstring;
  description : option jsstring;
  type : option jsstring;
  tags : option (list jsstring);
  url : option jsstring;
  file : option jsstring
}.

(** ** [escapeHtml] *)

(** [s.replace(/c/g, rep)] for a pattern that is the single character [c]
    and a replacement without [$]: every [c] becomes [rep], left to right. *)
Definition replaceAll (c : N) (rep : jsstring) (s : jsstring) : jsstring :=
  flat_map (fun x => if N.eqb x c then rep else [x]) s.

(** The chain of five [replace] calls, in the order of the source. *)
Definition five_passes (s : jsstring) : jsstring :=
  replaceAll APOS (lit "&#39;")
    (replaceAll QUOT (lit "&quot;")
      (replaceAll GT (lit "&gt;")
        (replaceAll LT (lit "&lt;")
          (replaceAll AMP (lit "&amp;") s)))).

(** [escapeHtml] of src/script.js, lines 161-169. The GitHub Pages script
    ends with a copy of this function whose text is damaged (two lines are
    repeated and the closing brace is missing); the model follows the intact
    text, for both scripts. *)
Definition escapeHtml (text : jsstring) : jsstring :=
  if negb (truthy text) then [] else five_passes text.

(** The specification of escaping, in the spec's words: each reserved
    character is replaced by its entity, every other character is kept, and
    the substitution is made once, for all five at the same time. *)
Definition entity (c : N) : jsstring :=
  if N.eqb c AMP then lit "&amp;"
  else if N.eqb c LT then lit "&lt;"
  else if N.eqb c GT then lit "&gt;"
  else if N.eqb c QUOT then lit "&quot;"
  else if N.eqb c APOS then lit "&#39;"
  else [c].

Definition escape_once (s : jsstring) : jsstring := flat_map entity s.

(** ** The renderer *)

(** The two scripts differ in the data source and in the link of a resource
    that names an uploaded file. *)
Inductive Variant := Backend | Pages.

(** A child of a container: what the parser made of a markup string assigned
    to [innerHTML], or a [div] created by the script, with its class name and
    the markup assigned to its own [innerHTML]. *)
Inductive Node :=
| Html (markup : jsstring)
| DivElement (className innerHTML : jsstring).

Definition node_markup (n : Node) : jsstring :=
  match n with
  | Html s => s
  | DivElement _ s => s
  end.

(** The children of an element after [element.innerHTML = s]. *)
Definition set_innerHTML (s : jsstring) : list Node :=
  if truthy s then [Html s] else [].

Definition noResults : jsstring := lit "<p>Geen resultaten gevonden.</p>".

(** [<a href="HREF" target="_blank" rel="noopener noreferrer">LABEL</a>]. *)
Definition anchor (href label : jsstring) : jsstring :=
  lit "<a href=" ++ [QUOT] ++ href ++ [QUOT]
  ++ lit " target=" ++ [QUOT] ++ lit "_blank" ++ [QUOT]
  ++ lit " rel=" ++ [QUOT] ++ lit "noopener noreferrer" ++ [QUOT]
  ++ lit ">" ++ label ++ lit "</a>".

Definition linkHtml (v : Variant) (item : Resource) : completion jsstring :=
  if truthy (or_empty (url item)) then
    let safeUrl := escapeHtml (or_empty (url item)) in
    Normal (anchor safeUrl (lit "Bekijk bron"))
  else if truthy (or_empty (file item)) then
    safeFile <- encodeURIComponent (or_empty (file item)) ;;
    match v with
    | Backend => Normal (anchor (lit "/uploads/" ++ safeFile) (lit "Download"))
    | Pages => Normal []
    end
  else Normal [].

Definition tagsHtml (item : Resource) : jsstring :=
  match tags item with
  | Some (t :: ts) =>
      lit "<p class=" ++ [QUOT] ++ lit "tags" ++ [QUOT] ++ lit ">Tags: "
      ++ join (lit ", ") (map escapeHtml (t :: ts)) ++ lit "</p>"
  | _ => []
  end.

(** The template literal assigned to [div.innerHTML]. *)
Definition cardHtml (title desc tagsH linkH : jsstring) : jsstring :=
  lit "<h3>" ++ title ++ lit "</h3><p>" ++ desc ++ lit "</p>" ++ tagsH
  ++ (if truthy linkH then lit "<p>" ++ linkH ++ lit "</p>" else []).

(** The body of the [forEach] callback, up to [appendChild]. *)
Definition renderItem (v : Variant) (item : Resource) : completion Node :=
  let title := escapeHtml (or_empty (title item)) in
  let desc := escapeHtml (or_empty (description item)) in
  link <- linkHtml v item ;;
  Normal (DivElement (lit "resource") (cardHtml title desc (tagsHtml item) link)).

(** [items.forEach(...)]: one [appendChild] per item, until a callback
    throws. *)
Fixpoint appendCards (v : Variant) (items : list Resource)
    (container : list Node) : list Node * completion unit :=
  match items with
  | [] => (container, Normal tt)
  | item :: rest =>
      match renderItem v item with
      | Throw e => (container, Throw e)
      | Normal div => appendCards v rest (container ++ [div])
      end
  end.

(** [renderResourceList(items, container)]: the children of the container
    afterwards, and how the call completed. *)
Definition renderResourceList (v : Variant) (items : option (list Resource))
    (container : list Node) : list Node * completion unit :=
  let container := set_innerHTML [] in
  match items with
  | None => (set_innerHTML noResults, Normal tt)
  | Some l =>
      if Nat.eqb (List.length l) 0 then (set_innerHTML noResults, Normal tt)
      else appendCards v l container
  end.

(** ** The data source of the GitHub Pages script *)

(** How a promise settles. *)
Inductive Outcome (A : Type) :=
| Fulfilled (a : A)
| Rejected.
Arguments Rejected {A}.

(** [cachedData] ([None] is [null]; an array, even an empty one, is truthy),
    the number of [fetch(DATA_URL)] calls made so far, and the number of
    [getData] invocations suspended at their [await]. *)
Record World := {
  cachedData : option (list Resource);
  fetches : nat;
  suspended : nat
}.

Definition initialWorld : World :=
  {| cachedData := None; fetches := 0; suspended := 0 |}.

(** [getData] up to its first [await]: the cached value, or a fetch is
    issued and the invocation is suspended. *)
Definition getData_begin (w : World) : World * option (list Resource) :=
  match cachedData w with
  | Some data => (w, Some data)
  | None =>
      ({| cachedData := None;
          fetches := S (fetches w);
          suspended := S (suspended w) |}, None)
  end.

(** [getData] from its [await] on: [net] is what fetching and parsing the
    document gave to this invocation. *)
Definition getData_resume (net : Outcome (list Resource)) (w : World)
  : World * Outcome (list Resource) :=
  match net with
  | Fulfilled data =>
      ({| cachedData := Some data;
          fetches := fetches w;
          suspended := pred (suspended w) |}, Fulfilled data)
  | Rejected =>
      ({| cachedData := cachedData w;
          fetches := fetches w;
          suspended := pred (suspended w) |}, Rejected)
  end.

(** A call of [getData] that runs to its end before anything else happens. *)
Definition getData (net : Outcome (list Resource)) (w : World)
  : World * Outcome (list Resource) :=
  match getData_begin w with
  | (w', Some data) => (w', Fulfilled data)
  | (w', None) => getData_resume net w'
  end.

(** Calls of [getData] one after the other, each with the answer the network
    would give it; the world afterwards and what the calls returned. *)
Fixpoint getData_calls (nets : list (Outcome (list Resource))) (w : World)
  : World * list (Outcome (list Resource)) :=
  match nets with
  | [] => (w, [])
  | net :: rest =>
      let (w1, r) := getData net w in
      let (w2, rs) := getData_calls rest w1 in
      (w2, r :: rs)
  end.

(** Calls that may overlap: an invocation begins, or a suspended one is
    resumed with the network's answer. *)
Inductive Event :=
| Call
| Settle (net : Outcome (list Resource)).

Definition step (w : World) (ev : Event) : World :=
  match ev with
  | Call => fst (getData_begin w)
  | Settle net =>
      match suspended w with
      | O => w
      | S _ => fst (getData_resume net w)
      end
  end.

Definition run (evs : list Event) (w : World) : World := fold_left step evs w.

(** ** The filter of the GitHub Pages script *)

Section Filter.
Context {host : Host}.

Definition matchesQuery (term : jsstring) (r : Resource) : bool :=
  String_includes (toLowerCase (or_empty (title r))) term
  || String_includes (toLowerCase (or_empty (description r))) term.

Definition matchesType (t : jsstring) (r : Resource) : bool :=
  jsstring_eqb (toLowerCase (or_empty (type r))) t.

(** The callback [fetchResources] passes to [getData().then]. *)
Definition fetchResources_then (q type : jsstring)
    (resources : list Resource) : list Resource :=
  let filtered := resources in
  let filtered :=
    if truthy q then
      let term := toLowerCase q in
      filter (matchesQuery term) filtered
    else filtered in
  let filtered :=
    if truthy type then
      let t := toLowerCase type in
      filter (matchesType t) filtered
    else filtered in
  filtered.

(** [fetchResources(q, type)], run to its end. *)
Definition fetchResources (q type : jsstring)
    (net : Outcome (list Resource)) (w : World)
  : World * Outcome (list Resource) :=
  match getData net w with
  | (w', Fulfilled resources) =>
      (w', Fulfilled (fetchResources_then q type resources))
  | (w', Rejected) => (w', Rejected)
  end.

(** The predicate of the tag filter in the click handler of the resources
    page. *)
Definition matchesTag (tag : jsstring) (r : Resource) : bool :=
  Array_includes (map toLowerCase (or_nil (tags r))) (toLowerCase tag).

End Filter.

(** ** Messages the controllers show *)

Definition enterTerm : jsstring := lit "<p>Vul eerst een zoekterm in.</p>".
Definition searchFailed : jsstring := lit "<p>Er ging iets mis bij het zoeken.</p>".
Definition loadFailed : jsstring := lit "<p>Kan bronnen niet laden.</p>".

(** ** [classList] and [Set] *)

Definition classList_remove (c : jsstring) (l : list jsstring) : list jsstring :=
  filter (fun x => negb (jsstring_eqb x c)) l.

Definition classList_add (c : jsstring) (l : list jsstring) : list jsstring :=
  if Array_includes l c then l else l ++ [c].

(** [s.add(t)] on a [Set] of strings: membership is exact equality, and the
    set iterates in insertion order. *)
Definition Set_add (s : list jsstring) (t : jsstring) : list jsstring :=
  if Array_includes s t then s else s ++ [t].

(** ** The controllers at page load *)

Inductive Listener := SearchClick | TypeClick | UploadSubmit.

(** Which of the elements a controller looks up exist in the page. *)
Record HomeDocument := {
  has_searchInput : bool;
  has_searchBtn : bool;
  has_typeSelect : bool;
  has_resultsDiv : bool
}.

(** [initHome]: the listeners it registered, and how it completed. *)
Definition initHome (d : HomeDocument) : list Listener * completion unit :=
  if negb (has_searchInput d) || negb (has_searchBtn d) then ([], Normal tt)
  else
    let registered := [SearchClick] in
    if has_typeSelect d then (registered ++ [TypeClick], Normal tt)
    else (registered, Throw TypeError).

Record UploadDocument := {
  has_form : bool;
  has_msg : bool
}.

Definition initUpload (d : UploadDocument) : list Listener * completion unit :=
  if negb (has_form d) then ([], Normal tt)
  else ([UploadSubmit], Normal tt).

(** The [submit] listener up to [new FormData(form)]: whether
    [preventDefault] was called, and how the listener went on. *)
Definition upload_submit (d : UploadDocument) : bool * completion unit :=
  let defaultPrevented := true in
  if has_msg d then (defaultPrevented, Normal tt)
  else (defaultPrevented, Throw TypeError).

(** ** The home page *)

(** The state the listeners of the home page work on. The search input and
    the search button exist (the guard of [initHome] saw them); the type
    selector, given by its class list, and the results container, given by
    its children, may be missing. [waiting] holds the [(q, type)] of the
    [fetchResources] calls whose data has not arrived. *)
Record HomePage := {
  value : jsstring;
  typeSelect : option (list jsstring);
  resultsDiv : option (list Node);
  world : World;
  waiting : list (jsstring * jsstring)
}.

Definition set_typeSelect (cl : list jsstring) (p : HomePage) : HomePage :=
  {| value := value p; typeSelect := Some cl; resultsDiv := resultsDiv p;
     world := world p; waiting := waiting p |}.

Definition set_resultsDiv (c : list Node) (p : HomePage) : HomePage :=
  {| value := value p; typeSelect := typeSelect p; resultsDiv := Some c;
     world := world p; waiting := waiting p |}.

Definition set_world (w : World) (ws : list (jsstring * jsstring))
    (p : HomePage) : HomePage :=
  {| value := value p; typeSelect := typeSelect p; resultsDiv := resultsDiv p;
     world := w; waiting := ws |}.

(** The click listener of the search button. *)
Definition searchBtn_click (p : HomePage) : HomePage * completion unit :=
  let q := trim (value p) in
  if negb (truthy q) then
    match resultsDiv p with
    | None => (p, Throw TypeError)
    | Some _ => (set_resultsDiv (set_innerHTML enterTerm) p, Normal tt)
    end
  else
    match typeSelect p with
    | None => (p, Throw TypeError)
    | Some cl =>
        let p1 := set_typeSelect (classList_remove (lit "hidden") cl) p in
        match resultsDiv p1 with
        | None => (p1, Throw TypeError)
        | Some _ => (set_resultsDiv (set_innerHTML []) p1, Normal tt)
        end
    end.

(** What the promise chain of the type listener does to the results
    container once [fetchResources] has settled: [then] renders, [catch]
    shows the failure, also when rendering threw. *)
Definition home_show (v : Variant) (r : Outcome (list Resource))
    (p : HomePage) : HomePage * completion unit :=
  match resultsDiv p with
  | None => (p, Throw TypeError)
  | Some c =>
      match r with
      | Fulfilled resources =>
          match renderResourceList v (Some resources) c with
          | (c', Normal _) => (set_resultsDiv c' p, Normal tt)
          | (_, Throw _) =>
              (set_resultsDiv (set_innerHTML searchFailed) p, Normal tt)
          end
      | Rejected => (set_resultsDiv (set_innerHTML searchFailed) p, Normal tt)
      end
  end.

Section HomeTypeClick.
Context {host : Host}.

(** The click listener of the type selector in the GitHub Pages script.
    [target] is the button [ev.target.closest('button')] finds, given by
    its [data-type] attribute. With the data cached the chain runs before
    the next event; otherwise the call waits for the network. *)
Definition typeSelect_click (target : option (option jsstring))
    (p : HomePage) : HomePage * completion unit :=
  match target with
  | None => (p, Normal tt)
  | Some dataset_type =>
      let q := trim (value p) in
      let type := or_empty dataset_type in
      match getData_begin (world p) with
      | (w, Some resources) =>
          home_show Pages (Fulfilled (fetchResources_then q type resources))
            (set_world w (waiting p) p)
      | (w, None) => (set_world w (waiting p ++ [(q, type)]) p, Normal tt)
      end
  end.

(** The oldest waiting call gets the network's answer. *)
Definition typeSelect_settle (net : Outcome (list Resource))
    (p : HomePage) : HomePage * completion unit :=
  match waiting p with
  | [] => (p, Normal tt)
  | (q, type) :: ws =>
      match getData_resume net (world p) with
      | (w, Fulfilled resources) =>
          home_show Pages (Fulfilled (fetchResources_then q type resources))
            (set_world w ws p)
      | (w, Rejected) => home_show Pages Rejected (set_world w ws p)
      end
  end.

End HomeTypeClick.

(** ** The resources page *)

Record Button := {
  textContent : jsstring;
  dataset_tag : option jsstring;
  classList : list jsstring
}.

(** The list container and the filter container, each given by its children
    when it exists, and the collection the click listener of the filter
    container closes over, once that listener is registered. *)
Record ResourcesPage := {
  listDiv : option (list Node);
  filterDiv : option (list Button);
  listener : option (list Resource)
}.

(** The [Set] of tags, filled resource by resource, tag by tag. *)
Definition distinctTags (resources : list Resource) : list jsstring :=
  fold_left (fun s r => fold_left Set_add (or_nil (tags r)) s) resources [].

Definition allBtn : Button :=
  {| textContent := lit "Alle"; dataset_tag := None;
     classList := classList_add (lit "active") [] |}.

Definition tagButton (tag : jsstring) : Button :=
  {| textContent := tag; dataset_tag := Some tag; classList := [] |}.

Definition deactivate (b : Button) : Button :=
  {| textContent := textContent b; dataset_tag := dataset_tag b;
     classList := classList_remove (lit "active") (classList b) |}.

Definition activate (b : Button) : Button :=
  {| textContent := textContent b; dataset_tag := dataset_tag b;
     classList := classList_add (lit "active") (classList b) |}.

(** [l] with [f] applied to its element at index [i]. *)
Fixpoint update_nth (A : Type) (f : A -> A) (i : nat) (l : list A) : list A :=
  match l, i with
  | [], _ => []
  | x :: rest, O => f x :: rest
  | x :: rest, S j => x :: update_nth f j rest
  end.

Section ResourcesController.
Context {host : Host}.
Variable v : Variant.

(** The callback of [then] in [initResources]. *)
Definition initResources_then (resources : list Resource)
    (p : ResourcesPage) : ResourcesPage * completion unit :=
  let tags := distinctTags resources in
  match filterDiv p with
  | None => (p, Throw TypeError)
  | Some buttons =>
      let buttons := (buttons ++ [allBtn]) ++ map tagButton tags in
      match listDiv p with
      | None =>
          ({| listDiv := None; filterDiv := Some buttons;
              listener := listener p |}, Throw TypeError)
      | Some c =>
          match renderResourceList v (Some resources) c with
          | (c', Normal _) =>
              ({| listDiv := Some c'; filterDiv := Some buttons;
                  listener := Some resources |}, Normal tt)
          | (c', Throw e) =>
              ({| listDiv := Some c'; filterDiv := Some buttons;
                  listener := listener p |}, Throw e)
          end
      end
  end.

(** The callback of [catch] in [initResources]. *)
Definition initResources_catch (p : ResourcesPage)
  : ResourcesPage * completion unit :=
  match listDiv p with
  | None => (p, Throw TypeError)
  | Some _ =>
      ({| listDiv := Some (set_innerHTML loadFailed);
          filterDiv := filterDiv p; listener := listener p |}, Normal tt)
  end.

(** [initResources] once the promise of the data source has settled; a
    [Throw] is a rejection nobody handles. *)
Definition initResources (net : Outcome (list Resource))
    (p : ResourcesPage) : ResourcesPage * completion unit :=
  match net with
  | Fulfilled resources =>
      match initResources_then resources p with
      | (p', Normal _) => (p', Normal tt)
      | (p', Throw _) => initResources_catch p'
      end
  | Rejected => initResources_catch p
  end.

(** The collection the click listener renders for the tag of the clicked
    button. *)
Definition tagFilter (resources : list Resource) (tag : jsstring)
  : list Resource :=
  if negb (truthy tag) then resources
  else filter (matchesTag tag) resources.

(** The click listener of the filter container. [target] is the index, in
    the filter container, of the button [ev.target.closest('button')]
    finds. *)
Definition filterDiv_click (target : option nat) (p : ResourcesPage)
  : ResourcesPage * completion unit :=
  match listener p, filterDiv p, target with
  | Some resources, Some buttons, Some i =>
      match nth_error buttons i with
      | None => (p, Normal tt)
      | Some btn =>
          let buttons := update_nth activate i (map deactivate buttons) in
          let tag := or_empty (dataset_tag btn) in
          let p1 := {| listDiv := listDiv p; filterDiv := Some buttons;
                       listener := listener p |} in
          match listDiv p with
          | None => (p1, Throw TypeError)
          | Some c =>
              let (c', r) :=
                renderResourceList v (Some (tagFilter resources tag)) c in
              ({| listDiv := Some c'; filterDiv := Some buttons;
                  listener := listener p |}, r)
          end
      end
  | _, _, _ => (p, Normal tt)
  end.

(** A sequence of clicks on the filter container. *)
Definition filterDiv_clicks (targets : list (option nat))
    (p : ResourcesPage) : ResourcesPage :=
  fold_left (fun p t => fst (filterDiv_click t p)) targets p.

End ResourcesController.

(** ** A host for running the model: lower case of the ASCII letters *)

Definition asciiLower (c : N) : N :=
  (if (65 <=? c) && (c <=? 90) then c + 32 else c)%N.

Definition asciiHost : Host := {| toLowerCase := map asciiLower |}.

(** ** Vocabulary of the specification *)

(** [t] occurs in [s] as a substring. *)
Definition IsSubstring (t s : jsstring) : Prop :=
  exists pre suf, s = pre ++ t ++ suf.

Section Vocabulary.
Context {host : Host}.

(** [s] contains [q] as a case-insensitive substring. *)
Definition ContainsCI (s q : jsstring) : Prop :=
  IsSubstring (toLowerCase q) (toLowerCase s).

(** [a] equals [b] case-insensitively. *)
Definition EqualsCI (a b : jsstring) : Prop :=
  toLowerCase a = toLowerCase b.

(** The query matches the resource: its title or its description, an
    absent one read as the empty string, contains the query. *)
Definition QueryMatches (q : jsstring) (r : Resource) : Prop :=
  ContainsCI (or_empty (title r)) q \/ ContainsCI (or_empty (description r)) q.

(** The tag matches some element of the tag sequence of the resource, an
    absent sequence read as the empty one. *)
Definition TagMatches (g : jsstring) (r : Resource) : Prop :=
  exists t, In t (or_nil (tags r)) /\ EqualsCI t g.

End Vocabulary.

(** Markup in which no [<] is the last character or stands before an [s]:
    no tag whose name starts with [s] opens in it. *)
Fixpoint noTagInS (m : jsstring) : bool :=
  match m with
  | [] => true
  | c :: rest =>
      (if N.eqb c LT then
         match rest with
         | [] => false
         | d :: _ => negb (N.eqb d 115)
         end
       else true) && noTagInS rest
  end.

(** Markup without any [<]. *)
Definition noLT (m : jsstring) : bool :=
  forallb (fun c => negb (N.eqb c LT)) m.

(** [s.isWellFormed()]: no unpaired surrogate. *)
Fixpoint wellFormed (s : jsstring) : bool :=
  match s with
  | [] => true
  | c :: rest =>
      if isTrailSurrogate c then false
      else if isLeadSurrogate c then
        match rest with
        | [] => false
        | d :: rest' => isTrailSurrogate d && wellFormed rest'
        end
      else wellFormed rest
  end.

(** The resource has a URL, or no file reference, or a file reference
    without unpaired surrogates: the renderer need not encode an ill-formed
    string for it. *)
Definition renderable (item : Resource) : bool :=
  truthy (or_empty (url item))
  || negb (truthy (or_empty (file item)))
  || wellFormed (or_empty (file item)).

(** [card] is the card of [item]: a [div] of class [resource] whose markup
    is the heading with the title escaped once, the paragraph with the
    description escaped once, the tags line with every tag escaped once when
    there are tags, and the link paragraph when there is a link. *)
Definition IsCardOf (v : Variant) (item : Resource) (card : Node) : Prop :=
  exists link,
    linkHtml v item = Normal link /\
    card =
      DivElement (lit "resource")
        (lit "<h3>" ++ escape_once (or_empty (title item))
         ++ lit "</h3><p>" ++ escape_once (or_empty (description item))
         ++ lit "</p>"
         ++ match or_nil (tags item) with
            | [] => []
            | ts =>
                lit "<p class=" ++ [QUOT] ++ lit "tags" ++ [QUOT]
                ++ lit ">Tags: " ++ join (lit ", ") (map escape_once ts)
                ++ lit "</p>"
            end
         ++ (if truthy link then lit "<p>" ++ link ++ lit "</p>" else [])).

(** Resources for the examples. *)
Definition scriptTitle : Resource :=
  {| title := Some (lit "<script>x</script>");
     description := Some (lit "a <b> & c"); type := None;
     tags := Some [lit "<i>"]; url := Some (lit "https://example.org/?a=1&b=2");
     file := None |}.

Definition scriptTitleLoneSurrogate : Resource :=
  {| title := Some (lit "<script>x</script>"); description := None;
     type := None; tags := None; url := None; file := Some [55296%N] |}.

Definition loneSurrogateFile : Resource :=
  {| title := Some (lit "Rapport"); description := None; type := None;
     tags := None; url := None; file := Some [55296%N] |}.

(** The collection of the scenarios of the specification. *)
Definition solarGuide : Resource :=
  {| title := Some (lit "Solar Guide"); description := None;
     type := Some (lit "pdf"); tags := Some [lit "energy"];
     url := None; file := None |}.

Definition windReport : Resource :=
  {| title := Some (lit "Wind Report"); description := None;
     type := Some (lit "doc"); tags := Some [lit "energy"; lit "policy"];
     url := None; file := None |}.

(** The world after a first call that fetched [data] and completed. *)
Definition loaded (data : list Resource) : World :=
  {| cachedData := Some data; fetches := 1; suspended := 0 |}.

(** A home page whose search input holds two spaces. *)
Definition blankHome : HomePage :=
  {| value := lit "  ";
     typeSelect := Some [lit "hidden"];
     resultsDiv := Some [Html (lit "<p>old</p>")];
     world := initialWorld;
     waiting := [] |}.

(** The states the click listener of the filter container can reach from a
    page on which it is registered with the collection [R]: the collection
    it closes over and the tags of the buttons stay as they are. *)
Definition Registered (R : list Resource) (tagsOf : list (option jsstring))
    (p : ResourcesPage) : Prop :=
  listener p = Some R /\
  (exists c, listDiv p = Some c) /\
  (exists buttons,
      filterDiv p = Some buttons /\ map dataset_tag buttons = tagsOf).

(** A resources page before the data arrives, and a collection in which
    one tag is spelled in two letter cases. *)
Definition emptyResourcesPage : ResourcesPage :=
  {| listDiv := Some []; filterDiv := Some []; listener := None |}.

Definition zonnepanelen : Resource :=
  {| title := Some (lit "Zonnepanelen"); description := None; type := None;
     tags := Some [lit "Energy"]; url := None; file := None |}.

Definition mixedCase : list Resource := [zonnepanelen; windReport].

(** The same with a resource between them that carries neither spelling. *)
Definition waterbeheer : Resource :=
  {| title := Some (lit "Waterbeheer"); description := None; type := None;
     tags := Some [lit "water"]; url := None; file := None |}.

Definition mixedCaseAndOther : list Resource :=
  [zonnepanelen; waterbeheer; windReport].

(** ** The rest of the scripts *)

(** One of the five characters [escapeHtml] replaces. *)
Definition reservedChar (c : N) : bool :=
  existsb (N.eqb c) [AMP; LT; GT; QUOT; APOS].

(** No character of [s] is in [bad]. *)
Definition noneOf (bad : list N) (s : jsstring) : bool :=
  forallb (fun c => negb (existsb (N.eqb c) bad)) s.

(** *** Which controller a page gets *)

Inductive Controller := HomeController | UploadController | ResourcesController.

(** [s.split(sep)] for a separator of one character. *)
Fixpoint split (sep : N) (s : jsstring) : list jsstring :=
  match s with
  | [] => [[]]
  | c :: rest =>
      if N.eqb c sep then [] :: split sep rest
      else
        match split sep rest with
        | seg :: segs => (c :: seg) :: segs
        | [] => [[c]]
        end
  end.

(** [l.pop()], as a value: the last element, [None] for [undefined]. *)
Fixpoint pop (l : list jsstring) : option jsstring :=
  match l with
  | [] => None
  | x :: rest =>
      match rest with
      | [] => Some x
      | _ :: _ => pop rest
      end
  end.

Definition SLASH : N := 47.

(** [path.split('/').pop() || 'index.html']. *)
Definition pageOf (path : jsstring) : jsstring :=
  let popped := or_empty (pop (split SLASH path)) in
  if truthy popped then popped else lit "index.html".

(** The [DOMContentLoaded] listener of the GitHub Pages script. *)
Definition dispatch_Pages (path : jsstring) : option Controller :=
  let page := pageOf path in
  if jsstring_eqb page (lit "index.html") || jsstring_eqb page [] then
    Some HomeController
  else if jsstring_eqb page (lit "resources.html") then Some ResourcesController
  else None.

(** The [DOMContentLoaded] listener of src/script.js. *)
Definition dispatch_Backend (path : jsstring) : option Controller :=
  if jsstring_eqb path (lit "/") || jsstring_eqb path (lit "/index.html") then
    Some HomeController
  else if startsWith path (lit "/upload") then Some UploadController
  else if startsWith path (lit "/resources") then Some ResourcesController
  else None.

(** *** [fetchResources] of src/script.js *)

(** A string as the scalar values [URLSearchParams] serialises: a surrogate
    pair is one code point, an unpaired surrogate becomes U+FFFD. *)
Fixpoint toUSV (s : jsstring) : list N :=
  match s with
  | [] => []
  | c :: rest =>
      if isTrailSurrogate c then 65533%N :: toUSV rest
      else if isLeadSurrogate c then
        match rest with
        | [] => [65533%N]
        | d :: rest' =>
            if isTrailSurrogate d then
              ((c - 55296) * 1024 + (d - 56320) + 65536)%N :: toUSV rest'
            else 65533%N :: toUSV rest
        end
      else c :: toUSV rest
  end.

(** The characters the [application/x-www-form-urlencoded] serialiser
    keeps: the ASCII letters and digits and [*-._]. *)
Definition formKeeps (c : N) : bool :=
  ((48 <=? c) && (c <=? 57) || (65 <=? c) && (c <=? 90)
   || (97 <=? c) && (c <=? 122)
   || existsb (N.eqb c) [42; 45; 46; 95])%N.

Definition formEncode (cp : N) : jsstring :=
  if N.eqb cp 32 then [43%N]
  else if formKeeps cp then [cp]
  else flat_map percent (utf8 cp).

Definition urlencode (s : jsstring) : jsstring := flat_map formEncode (toUSV s).

(** [params.set(name, value)]: the first pair of that name gets the value
    and the later ones go; without such a pair one is appended. *)
Fixpoint URLSearchParams_set (name value : jsstring)
    (params : list (jsstring * jsstring)) : list (jsstring * jsstring) :=
  match params with
  | [] => [(name, value)]
  | (k, x) :: rest =>
      if jsstring_eqb k name then
        (name, value) :: filter (fun kv => negb (jsstring_eqb (fst kv) name)) rest
      else (k, x) :: URLSearchParams_set name value rest
  end.

(** [params.toString()]. *)
Definition URLSearchParams_toString (params : list (jsstring * jsstring))
  : jsstring :=
  join (lit "&")
    (map (fun kv => urlencode (fst kv) ++ lit "=" ++ urlencode (snd kv)) params).

(** The URL [fetchResources(q, type)] of src/script.js requests. *)
Definition resourcesUrl (q type : jsstring) : jsstring :=
  let params := [] in
  let params := if truthy q then URLSearchParams_set (lit "q") q params
                else params in
  let params := if truthy type then URLSearchParams_set (lit "type") type params
                else params in
  lit "/api/resources?" ++ URLSearchParams_toString params.

(** A response: its [ok] flag and what [json()] gives. *)
Record Response (A : Type) := {
  ok : bool;
  json : Outcome A
}.

(** How the promise of [fetchResources(q, type)] of src/script.js settles,
    given how the [fetch] settled. *)
Definition fetchResources_Backend (net : Outcome (Response (list Resource)))
  : Outcome (list Resource) :=
  match net with
  | Rejected => Rejected
  | Fulfilled r => if negb (ok r) then Rejected else json r
  end.

(** *** The type listener when answers arrive in any order *)

Section HomeSettleAny.
Context {host : Host}.

(** The waiting call at index [k] gets the network's answer. *)
Definition typeSelect_settle_nth (k : nat) (net : Outcome (list Resource))
    (p : HomePage) : HomePage * completion unit :=
  match nth_error (waiting p) k with
  | None => (p, Normal tt)
  | Some (q, type) =>
      let ws := firstn k (waiting p) ++ skipn (S k) (waiting p) in
      match getData_resume net (world p) with
      | (w, Fulfilled resources) =>
          home_show Pages (Fulfilled (fetchResources_then q type resources))
            (set_world w ws p)
      | (w, Rejected) => home_show Pages Rejected (set_world w ws p)
      end
  end.

End HomeSettleAny.

(** *** The upload page *)

Definition uploadOk : jsstring := lit "Upload succesvol!".
Definition uploadFailed : jsstring := lit "Er ging iets mis bij het uploaden.".

(** The form, given by the current and the default values of its fields,
    the message element, given by its text and its colour, and the bodies of
    the POST requests made so far. The form and the message element exist. *)
Record UploadPage := {
  fields : list (jsstring * jsstring);
  defaults : list (jsstring * jsstring);
  msg_textContent : jsstring;
  msg_color : jsstring;
  posted : list (list (jsstring * jsstring));
  defaultPrevented : bool
}.

(** The [submit] listener, up to the call of [fetch]. *)
Definition form_submit (p : UploadPage) : UploadPage :=
  {| fields := fields p; defaults := defaults p;
     msg_textContent := []; msg_color := msg_color p;
     posted := posted p ++ [fields p];
     defaultPrevented := true |}.

(** The promise chain of the [submit] listener once [fetch] has settled. *)
Definition form_settle (A : Type) (net : Outcome (Response A))
    (p : UploadPage) : UploadPage :=
  let parsed :=
    match net with
    | Rejected => Rejected
    | Fulfilled r => if negb (ok r) then Rejected else json r
    end in
  match parsed with
  | Fulfilled _ =>
      {| fields := defaults p; defaults := defaults p;
         msg_textContent := uploadOk; msg_color := lit "green";
         posted := posted p; defaultPrevented := defaultPrevented p |}
  | Rejected =>
      {| fields := fields p; defaults := defaults p;
         msg_textContent := uploadFailed; msg_color := lit "red";
         posted := posted p; defaultPrevented := defaultPrevented p |}
  end.

(** What the promise chain of the type listener leaves in the results
    container for a collection: its rendering, or the failure message when
    rendering throws. *)
Definition shown (v : Variant) (items : list Resource) : list Node :=
  match renderResourceList v (Some items) [] with
  | (c, Normal _) => c
  | (_, Throw _) => set_innerHTML searchFailed
  end.

(** The number of calls of [getData] among the events. *)
Definition callsIn (evs : list Event) : nat :=
  List.length (filter (fun ev => match ev with Call => true | Settle _ => false end) evs).

(** A character [encodeURIComponent] never writes: it is not one it leaves
    alone, not [%], and not a hexadecimal digit. *)
Definition neverEncoded (c : N) : bool :=
  (negb (isUnescaped c) && negb (c =? 37)
   && ((c <? 48) || ((57 <? c) && (c <? 65))))%N.

(** A character the form serialiser never writes. *)
Definition neverSerialised (c : N) : bool :=
  (negb (formKeeps c) && negb (c =? 37) && negb (c =? 43)
   && ((c <? 48) || ((57 <? c) && (c <? 65))))%N.

(** Events of the upload page: the form is submitted, the user edits the
    fields, or the pending request settles. *)
Inductive UploadEvent (A : Type) :=
| Submit
| Settled (net : Outcome (Response A)).
Arguments Submit {A}.

Definition upload_step (A : Type) (p : UploadPage) (ev : UploadEvent A)
  : UploadPage :=
  match ev with
  | Submit => form_submit p
  | Settled net => form_settle net p
  end.

(** The upload went through: the response is [ok] and its body parses. *)
Definition uploadSucceeded (A : Type) (net : Outcome (Response A)) : bool :=
  match net with
  | Fulfilled r =>
      ok r && match json r with Fulfilled _ => true | Rejected => false end
  | Rejected => false
  end.

(** No request among the events went through. *)
Definition allFailed (A : Type) (evs : list (UploadEvent A)) : bool :=
  forallb (fun ev => match ev with
                     | Submit => true
                     | Settled net => negb (uploadSucceeded net)
                     end) evs.

Definition submitsIn (A : Type) (evs : list (UploadEvent A)) : nat :=
  List.length (filter (fun ev => match ev with Submit => true | Settled _ => false end) evs).

(** A resource with a file reference only. *)
Definition fileOnly : Resource :=
  {| title := None; description := None; type := None; tags := None;
     url := None; file := Some (lit "jaar verslag/2024.pdf") |}.

(** A home page after the data was cached. *)
Definition cachedHome : HomePage :=
  {| value := lit " wind ";
     typeSelect := Some [];
     resultsDiv := Some [];
     world := loaded [solarGuide; windReport];
     waiting := [] |}.

(** A resource whose only tag is the empty string. *)
Definition untagged : Resource :=
  {| title := Some (lit "Nota"); description := None; type := None;
     tags := Some [[]]; url := None; file := None |}.

(** * Part II: the properties *)

(** ** Strings *)

Lemma jsstring_eqb_eq a b : jsstring_eqb a b = true <-> a = b.
Proof.
  unfold jsstring_eqb. destruct (jsstring_dec a b); split; congruence.
Qed.

Lemma truthy_true s : truthy s = true <-> s <> [].
Proof. destruct s; cbn; split; congruence. Qed.

Lemma startsWith_prefix s t :
  startsWith s t = true <-> exists suf, s = t ++ suf.
Proof.
  revert s. induction t as [|a t IH]; intros s; cbn.
  - split; [intros _; now exists s | reflexivity].
  - destruct s as [|b s].
    + split; [discriminate | intros [suf H]; discriminate].
    + rewrite andb_true_iff, N.eqb_eq, IH. split.
      * intros [-> [suf ->]]. now exists suf.
      * intros [suf H]. injection H as -> ->. split; [reflexivity | now exists suf].
Qed.

Lemma String_includes_substring s t :
  String_includes s t = true <-> IsSubstring t s.
Proof.
  unfold IsSubstring. induction s as [|c s IH]; cbn [String_includes].
  - rewrite orb_false_r, startsWith_prefix. split.
    + intros [suf H]. now exists [], suf.
    + intros [pre [suf H]]. destruct pre; [now exists suf | discriminate].
  - rewrite orb_true_iff, startsWith_prefix, IH. split.
    + intros [[suf H] | [pre [suf H]]].
      * now exists [], suf.
      * exists (c :: pre), suf. cbn. now rewrite H.
    + intros [[|x pre] [suf H]].
      * left. now exists suf.
      * right. injection H as -> H. now exists pre, suf.
Qed.

Lemma Array_includes_In l x : Array_includes l x = true <-> In x l.
Proof.
  unfold Array_includes. rewrite existsb_exists. split.
  - intros [y [Hy E]]. apply jsstring_eqb_eq in E. now subst.
  - intros H. exists x. split; [assumption | now apply jsstring_eqb_eq].
Qed.

(** ** Escaping *)

Lemma replaceAll_app c rep a b :
  replaceAll c rep (a ++ b) = replaceAll c rep a ++ replaceAll c rep b.
Proof. unfold replaceAll. apply flat_map_app. Qed.

Lemma five_passes_app a b : five_passes (a ++ b) = five_passes a ++ five_passes b.
Proof. unfold five_passes. now rewrite !replaceAll_app. Qed.

Lemma five_passes_single c : five_passes [c] = entity c.
Proof.
  unfold entity.
  destruct (N.eqb_spec c AMP) as [->|Hamp]; [reflexivity|].
  destruct (N.eqb_spec c LT) as [->|Hlt]; [reflexivity|].
  destruct (N.eqb_spec c GT) as [->|Hgt]; [reflexivity|].
  destruct (N.eqb_spec c QUOT) as [->|Hquot]; [reflexivity|].
  destruct (N.eqb_spec c APOS) as [->|Hapos]; [reflexivity|].
  unfold five_passes, replaceAll; cbn [flat_map app].
  apply N.eqb_neq in Hamp, Hlt, Hgt, Hquot, Hapos.
  rewrite Hamp; cbn [flat_map app].
  rewrite Hlt; cbn [flat_map app].
  rewrite Hgt; cbn [flat_map app].
  rewrite Hquot; cbn [flat_map app].
  rewrite Hapos; reflexivity.
Qed.

Lemma five_passes_escape_once s : five_passes s = escape_once s.
Proof.
  induction s as [|c s IH]; [reflexivity|].
  change (c :: s) with ([c] ++ s).
  rewrite five_passes_app, five_passes_single, IH.
  reflexivity.
Qed.

Lemma escapeHtml_escape_once s : escapeHtml s = escape_once s.
Proof.
  destruct s as [|c s]; [reflexivity|].
  unfold escapeHtml; cbn [truthy negb].
  apply five_passes_escape_once.
Qed.

(** C1. For every string, [escapeHtml] replaces every occurrence of each of
    the five reserved characters by its entity and leaves every other
    character alone: the five sequential passes of the code equal one
    simultaneous substitution, so an ampersand that an escape introduces is
    never escaped again; on the five characters in a row the result is
    [&amp;&lt;&gt;&quot;&#39;]. *)
Theorem escapeHtml_escapes_each_reserved_once :
  (forall s : jsstring, escapeHtml s = escape_once s) /\
  escapeHtml [AMP; LT; GT; QUOT; APOS] = lit "&amp;&lt;&gt;&quot;&#39;".
Proof.
  split; [apply escapeHtml_escape_once | reflexivity].
Qed.

(** ** The filter *)

Section FilterProperties.
Context {host : Host}.

Lemma matchesQuery_QueryMatches q r :
  matchesQuery (toLowerCase q) r = true <-> QueryMatches q r.
Proof.
  unfold matchesQuery, QueryMatches, ContainsCI.
  now rewrite orb_true_iff, !String_includes_substring.
Qed.

Lemma matchesType_EqualsCI t r :
  matchesType (toLowerCase t) r = true <-> EqualsCI (or_empty (type r)) t.
Proof. unfold matchesType, EqualsCI. apply jsstring_eqb_eq. Qed.

Lemma matchesTag_TagMatches g r :
  matchesTag g r = true <-> TagMatches g r.
Proof.
  unfold matchesTag, TagMatches, EqualsCI.
  rewrite Array_includes_In, in_map_iff. split.
  - intros [t [E Ht]]. now exists t.
  - intros [t [Ht E]]. now exists t.
Qed.

Lemma fetchResources_fulfilled q t net w R :
  snd (getData net w) = Fulfilled R ->
  snd (fetchResources q t net w) = Fulfilled (fetchResources_then q t R).
Proof.
  unfold fetchResources. destruct (getData net w) as [w' [R'|]]; cbn.
  - now intros [= ->].
  - discriminate.
Qed.

(** C3. With a non-empty query and the empty type constraint the filter
    returns exactly the resources whose title or description contains the
    query as a case-insensitive substring, an absent title or description
    read as the empty string: the result is the collection filtered, in
    order, by a test that holds of a resource if and only if the query
    matches it; [fetchResources] fulfils with that result whenever
    [getData] fulfils with the collection. *)
Theorem fetchResources_query_exact (R : list Resource) (q : jsstring) :
  q <> [] ->
  exists keep : Resource -> bool,
    (forall r, keep r = true <-> QueryMatches q r) /\
    fetchResources_then q [] R = filter keep R /\
    (forall net w,
        snd (getData net w) = Fulfilled R ->
        snd (fetchResources q [] net w) = Fulfilled (filter keep R)).
Proof.
  intros Hq. exists (matchesQuery (toLowerCase q)).
  assert (E : fetchResources_then q [] R
              = filter (matchesQuery (toLowerCase q)) R).
  { unfold fetchResources_then. apply truthy_true in Hq. now rewrite Hq. }
  split; [intros r; apply matchesQuery_QueryMatches|].
  split; [exact E|].
  intros net w Hdata. rewrite <- E. now apply fetchResources_fulfilled.
Qed.

(** C4. With the empty query and a non-empty type [t] the filter returns
    exactly the resources whose type equals [t] case-insensitively; with
    the empty query and the empty type it returns the collection itself,
    unchanged and in its order. *)
Theorem fetchResources_type_exact (R : list Resource) (t : jsstring) :
  (t <> [] ->
   exists keep : Resource -> bool,
     (forall r, keep r = true <-> EqualsCI (or_empty (type r)) t) /\
     fetchResources_then [] t R = filter keep R /\
     (forall net w,
         snd (getData net w) = Fulfilled R ->
         snd (fetchResources [] t net w) = Fulfilled (filter keep R))) /\
  fetchResources_then [] [] R = R /\
  (forall net w,
      snd (getData net w) = Fulfilled R ->
      snd (fetchResources [] [] net w) = Fulfilled R).
Proof.
  split; [|split].
  - intros Ht. exists (matchesType (toLowerCase t)).
    assert (E : fetchResources_then [] t R
                = filter (matchesType (toLowerCase t)) R).
    { unfold fetchResources_then. apply truthy_true in Ht.
      cbn [truthy]. now rewrite Ht. }
    split; [intros r; apply matchesType_EqualsCI|].
    split; [exact E|].
    intros net w Hdata. rewrite <- E. now apply fetchResources_fulfilled.
  - reflexivity.
  - intros net w Hdata.
    now rewrite (fetchResources_fulfilled [] [] net w Hdata).
Qed.

End FilterProperties.

(** The scenario of the specification: the query [solar] selects exactly the
    first record. *)
Example query_solar :
  fetchResources_then (host := asciiHost) (lit "solar") []
    [solarGuide; windReport] = [solarGuide].
Proof. reflexivity. Qed.

Example type_DOC :
  fetchResources_then (host := asciiHost) [] (lit "DOC")
    [solarGuide; windReport] = [windReport].
Proof. reflexivity. Qed.

Lemma fetchResources_query_exact_solar :
  exists keep : Resource -> bool,
    (forall r, keep r = true <-> QueryMatches (host := asciiHost) (lit "solar") r) /\
    fetchResources_then (host := asciiHost) (lit "solar") []
      [solarGuide; windReport] = filter keep [solarGuide; windReport] /\
    (forall net w,
        snd (getData net w) = Fulfilled [solarGuide; windReport] ->
        snd (fetchResources (host := asciiHost) (lit "solar") [] net w)
        = Fulfilled (filter keep [solarGuide; windReport])).
Proof.
  apply (@fetchResources_query_exact asciiHost [solarGuide; windReport]
           (lit "solar")).
  discriminate.
Defined.

Lemma fetchResources_type_exact_doc :
  exists keep : Resource -> bool,
    (forall r, keep r = true
               <-> EqualsCI (host := asciiHost) (or_empty (type r)) (lit "DOC")) /\
    fetchResources_then (host := asciiHost) [] (lit "DOC")
      [solarGuide; windReport] = filter keep [solarGuide; windReport] /\
    (forall net w,
        snd (getData net w) = Fulfilled [solarGuide; windReport] ->
        snd (fetchResources (host := asciiHost) [] (lit "DOC") net w)
        = Fulfilled (filter keep [solarGuide; windReport])).
Proof.
  apply (proj1 (@fetchResources_type_exact asciiHost [solarGuide; windReport]
                  (lit "DOC"))).
  discriminate.
Defined.

(** ** The cache of the data source *)

Lemma getData_first data :
  getData (Fulfilled data) initialWorld = (loaded data, Fulfilled data).
Proof. reflexivity. Qed.

Lemma step_loaded data ev : step (loaded data) ev = loaded data.
Proof. destruct ev; reflexivity. Qed.

Lemma run_loaded data evs : run evs (loaded data) = loaded data.
Proof.
  unfold run. induction evs as [|ev evs IH]; cbn [fold_left].
  - reflexivity.
  - now rewrite step_loaded.
Qed.

Lemma getData_calls_loaded data nets :
  getData_calls nets (loaded data)
  = (loaded data, map (fun _ => Fulfilled data) nets).
Proof.
  induction nets as [|net nets IH]; cbn [getData_calls map].
  - reflexivity.
  - change (getData net (loaded data)) with (loaded data, Fulfilled data).
    cbv beta iota. now rewrite IH.
Qed.

(** A call that nothing interrupts is the event [Call] followed at once by
    its [Settle]. *)
Lemma getData_run net w :
  suspended w = 0 -> fst (getData net w) = run [Call; Settle net] w.
Proof.
  destruct w as [[data|] n s]; cbn; intros ->; [reflexivity|].
  destruct net; reflexivity.
Qed.

(** C7, as amended. Starting with an empty cache, a call of [getData] that
    completes before any other call begins, and whose fetch and parse
    succeed, issues one fetch, stores the parsed collection in the cache and
    returns it. From then on, whatever calls begin and whatever the network
    would answer, every call returns the cached collection at once, no
    further fetch is issued and the cache keeps its value. *)
Theorem getData_write_once (data : list Resource) :
  getData (Fulfilled data) initialWorld = (loaded data, Fulfilled data) /\
  cachedData (loaded data) = Some data /\
  fetches (loaded data) = 1 /\
  (forall evs : list Event,
      let w := run evs (loaded data) in
      getData_begin w = (w, Some data) /\
      cachedData w = Some data /\ fetches w = 1) /\
  (forall nets : list (Outcome (list Resource)),
      getData_calls nets (loaded data)
      = (loaded data, map (fun _ => Fulfilled data) nets)).
Proof.
  split; [apply getData_first|].
  split; [reflexivity|].
  split; [reflexivity|].
  split.
  - intros evs. cbv zeta. rewrite run_loaded. now cbn.
  - apply getData_calls_loaded.
Qed.

(** C7 as stated fails when calls overlap: a second call that begins while
    the first is suspended at its [await] issues a second fetch, and its
    answer overwrites the value the first one cached. *)
Lemma getData_overlap_refetches_and_overwrites :
  fetches (run [Call; Call] initialWorld) = 2 /\
  cachedData (run [Call; Call; Settle (Fulfilled [solarGuide])] initialWorld)
  = Some [solarGuide] /\
  cachedData (run [Call; Call; Settle (Fulfilled [solarGuide]);
                   Settle (Fulfilled [windReport])] initialWorld)
  = Some [windReport] /\
  [solarGuide] <> [windReport].
Proof.
  repeat split; discriminate.
Qed.

(** A failed fetch caches nothing: the next call fetches again. *)
Lemma getData_rejected_refetches data :
  getData_calls [Rejected; Fulfilled data] initialWorld
  = ({| cachedData := Some data; fetches := 2; suspended := 0 |},
     [Rejected; Fulfilled data]).
Proof. reflexivity. Qed.

(** ** The home page *)

Lemma trimStart_nil s : trimStart s = [] <-> forallb isWhiteSpace s = true.
Proof.
  induction s as [|c s IH]; cbn [trimStart forallb].
  - tauto.
  - destruct (isWhiteSpace c); cbn [andb].
    + exact IH.
    + split; discriminate.
Qed.

Lemma trimStart_head s c r : trimStart s = c :: r -> isWhiteSpace c = false.
Proof.
  induction s as [|d s IH]; cbn [trimStart].
  - discriminate.
  - destruct (isWhiteSpace d) eqn:E; [exact IH|].
    now intros [= <- _].
Qed.

Lemma forallb_rev_true (A : Type) (f : A -> bool) (l : list A) :
  forallb f (rev l) = true -> forallb f l = true.
Proof.
  rewrite !forallb_forall. intros H x Hx. apply H. now apply in_rev in Hx.
Qed.

(** The trimmed value is empty exactly when the value holds white space
    only. *)
Lemma trim_nil s : trim s = [] <-> forallb isWhiteSpace s = true.
Proof.
  unfold trim, trimEnd. rewrite <- trimStart_nil. split.
  - intros H. apply (f_equal (@rev N)) in H. rewrite rev_involutive in H.
    cbn [rev] in H. apply trimStart_nil in H. apply forallb_rev_true in H.
    destruct (trimStart s) as [|c r] eqn:E; [reflexivity|].
    apply trimStart_head in E. cbn [forallb] in H. rewrite E in H.
    discriminate.
  - now intros ->.
Qed.

(** C8. On the home page, a click on the search button while the trimmed
    value of the search input is empty puts the prompt, and nothing else,
    in the results container, leaves the class list of the type selector
    (and so its [hidden] class) as it was, and leaves the cache, the count
    of fetches and the waiting calls as they were: no fetch is made. *)
Theorem searchBtn_click_empty_query (p : HomePage) (c : list Node) :
  resultsDiv p = Some c ->
  trim (value p) = [] ->
  searchBtn_click p = (set_resultsDiv [Html enterTerm] p, Normal tt) /\
  resultsDiv (fst (searchBtn_click p)) = Some [Html enterTerm] /\
  typeSelect (fst (searchBtn_click p)) = typeSelect p /\
  world (fst (searchBtn_click p)) = world p /\
  fetches (world (fst (searchBtn_click p))) = fetches (world p) /\
  waiting (fst (searchBtn_click p)) = waiting p.
Proof.
  intros Hc Hq.
  assert (E : searchBtn_click p = (set_resultsDiv [Html enterTerm] p, Normal tt)).
  { unfold searchBtn_click. rewrite Hq, Hc. reflexivity. }
  rewrite E. repeat split; reflexivity.
Qed.

Lemma searchBtn_click_empty_query_blank :
  searchBtn_click blankHome
  = (set_resultsDiv [Html enterTerm] blankHome, Normal tt) /\
  resultsDiv (fst (searchBtn_click blankHome)) = Some [Html enterTerm] /\
  typeSelect (fst (searchBtn_click blankHome)) = typeSelect blankHome /\
  world (fst (searchBtn_click blankHome)) = world blankHome /\
  fetches (world (fst (searchBtn_click blankHome))) = fetches (world blankHome) /\
  waiting (fst (searchBtn_click blankHome)) = waiting blankHome.
Proof.
  apply (@searchBtn_click_empty_query blankHome [Html (lit "<p>old</p>")]);
    reflexivity.
Defined.

(** With a search term the same click reveals the type selector, and a click
    on a type button then fetches. *)
Example searchBtn_click_reveals :
  let p := {| value := lit " zon "; typeSelect := Some [lit "types"; lit "hidden"];
              resultsDiv := Some [Html enterTerm]; world := initialWorld;
              waiting := [] |} in
  typeSelect (fst (searchBtn_click p)) = Some [lit "types"] /\
  resultsDiv (fst (searchBtn_click p)) = Some [] /\
  fetches (world (fst (typeSelect_click (host := asciiHost)
                         (Some (Some (lit "pdf")))
                         (fst (searchBtn_click p))))) = 1.
Proof. repeat split. Qed.

(** ** Missing elements *)

Lemma initHome_guard d :
  has_searchInput d = false \/ has_searchBtn d = false ->
  initHome d = ([], Normal tt).
Proof.
  unfold initHome. intros [-> | ->]; [reflexivity|].
  now rewrite orb_true_r.
Qed.

Lemma initUpload_guard d : has_form d = false -> initUpload d = ([], Normal tt).
Proof. unfold initUpload. now intros ->. Qed.

(** C9 fails on the code. On a home page that has the search input and the
    search button but no type selector, [initHome] passes its guard,
    registers the listener of the search button and then throws a
    [TypeError]; [initResources] has no guard at all: without the filter
    container it shows the failure message in the list, without the list
    container its promise rejects with a [TypeError] nobody handles; and the
    submit listener of the upload page throws when the message element is
    missing. *)
Theorem initHome_without_typeSelect_throws :
  initHome {| has_searchInput := true; has_searchBtn := true;
              has_typeSelect := false; has_resultsDiv := true |}
  = ([SearchClick], Throw TypeError) /\
  initResources Pages (Fulfilled [solarGuide])
    {| listDiv := Some []; filterDiv := None; listener := None |}
  = ({| listDiv := Some [Html loadFailed]; filterDiv := None; listener := None |},
     Normal tt) /\
  snd (initResources Pages (Fulfilled [solarGuide])
         {| listDiv := None; filterDiv := Some []; listener := None |})
  = Throw TypeError /\
  initUpload {| has_form := true; has_msg := false |}
  = ([UploadSubmit], Normal tt) /\
  upload_submit {| has_form := true; has_msg := false |}
  = (true, Throw TypeError).
Proof. repeat split. Qed.

(** ** [encodeURIComponent] *)

Lemma isUnescaped_ascii c : isUnescaped c = true -> (c <= 126)%N /\ c <> LT.
Proof.
  unfold isUnescaped, LT. cbn [existsb].
  rewrite !orb_true_iff, !andb_true_iff, !N.leb_le, !N.eqb_eq. lia.
Qed.

Lemma isUnescaped_not_surrogate c :
  isUnescaped c = true -> isTrailSurrogate c = false /\ isLeadSurrogate c = false.
Proof.
  intros H. apply isUnescaped_ascii in H. destruct H as [H _].
  unfold isTrailSurrogate, isLeadSurrogate.
  split; apply andb_false_iff; left; apply N.leb_gt; lia.
Qed.

Lemma hexDigit_not_LT n : hexDigit n <> LT.
Proof.
  unfold hexDigit, LT. destruct (N.ltb_spec n 10); lia.
Qed.

Lemma noLT_app a b : noLT (a ++ b) = noLT a && noLT b.
Proof. apply forallb_app. Qed.

Lemma noLT_cons c m : noLT (c :: m) = negb (N.eqb c LT) && noLT m.
Proof. reflexivity. Qed.

Lemma noLT_percent octets : noLT (flat_map percent octets) = true.
Proof.
  induction octets as [|o os IH]; [reflexivity|].
  cbn [flat_map]. rewrite noLT_app, IH, andb_true_r.
  unfold percent. rewrite !noLT_cons.
  pose proof (hexDigit_not_LT (o / 16)) as H1.
  pose proof (hexDigit_not_LT (o mod 16)) as H2.
  apply N.eqb_neq in H1, H2. now rewrite H1, H2.
Qed.

(** Induction that follows a recursion consuming one or two elements. *)
Lemma list_ind_two (A : Type) (P : list A -> Prop) :
  P [] ->
  (forall c rest,
      P rest -> (forall d rest', rest = d :: rest' -> P rest') -> P (c :: rest)) ->
  forall s, P s.
Proof.
  intros Hnil Hcons s.
  enough (H : P s /\ (forall d rest', s = d :: rest' -> P rest')) by apply H.
  induction s as [|c s [IH1 IH2]].
  - split; [assumption | discriminate].
  - split; [now apply Hcons | now intros d rest' [= _ <-]].
Qed.

(** [encodeURIComponent] returns exactly on the well-formed strings, and
    what it returns holds no [<]. *)
Lemma encodeURIComponent_wellFormed s :
  if wellFormed s
  then exists r, encodeURIComponent s = Normal r /\ noLT r = true
  else encodeURIComponent s = Throw URIError.
Proof.
  induction s as [|c rest IH1 IH2] using list_ind_two.
  - cbn. now exists [].
  - cbn [wellFormed encodeURIComponent].
    destruct (isUnescaped c) eqn:Eu.
    + destruct (isUnescaped_not_surrogate c Eu) as [-> ->].
      destruct (isUnescaped_ascii c Eu) as [_ Hlt].
      destruct (wellFormed rest).
      * destruct IH1 as [r [-> Hr]]. cbn [bind]. exists (c :: r). split; [reflexivity|].
        rewrite noLT_cons, Hr. apply N.eqb_neq in Hlt. now rewrite Hlt.
      * now rewrite IH1.
    + destruct (isTrailSurrogate c); [reflexivity|].
      destruct (isLeadSurrogate c).
      * destruct rest as [|d rest']; [reflexivity|].
        destruct (isTrailSurrogate d); [|reflexivity]. cbn [andb].
        specialize (IH2 d rest' eq_refl).
        destruct (wellFormed rest').
        -- destruct IH2 as [r [-> Hr]]. cbn [bind]. eexists. split; [reflexivity|].
           now rewrite noLT_app, noLT_percent, Hr.
        -- now rewrite IH2.
      * destruct (wellFormed rest).
        -- destruct IH1 as [r [-> Hr]]. cbn [bind]. eexists. split; [reflexivity|].
           now rewrite noLT_app, noLT_percent, Hr.
        -- now rewrite IH1.
Qed.

Example encodeURIComponent_euro :
  encodeURIComponent (lit "a b/" ++ [8364; 55357; 56832]%N)
  = Normal (lit "a%20b%2F%E2%82%AC%F0%9F%98%80").
Proof. reflexivity. Qed.

(** ** Markup without a tag in [s] *)

Lemma noTagInS_app a b :
  noTagInS a = true -> noTagInS b = true -> noTagInS (a ++ b) = true.
Proof.
  intros Ha Hb. induction a as [|c a IH]; [assumption|].
  cbn [app noTagInS] in *. apply andb_true_iff in Ha. destruct Ha as [Hc Ha].
  rewrite (IH Ha), andb_true_r.
  destruct a as [|d a]; [|exact Hc].
  destruct (N.eqb c LT); [discriminate | reflexivity].
Qed.

Lemma noLT_noTagInS m : noLT m = true -> noTagInS m = true.
Proof.
  induction m as [|c m IH]; [reflexivity|].
  rewrite noLT_cons, andb_true_iff, negb_true_iff. intros [Hc Hm].
  cbn [noTagInS]. now rewrite Hc, (IH Hm).
Qed.

(** Markup without a tag in [s] holds no [<script>]. *)
Lemma noTagInS_no_script m :
  noTagInS m = true -> String_includes m (lit "<script>") = false.
Proof.
  intros H. destruct (String_includes m (lit "<script>")) eqn:E; [|reflexivity].
  apply String_includes_substring in E. destruct E as [pre [suf ->]].
  exfalso. induction pre as [|c pre IH].
  - cbn in H. discriminate.
  - apply IH. cbn [app noTagInS] in H.
    now apply andb_true_iff in H.
Qed.

Lemma noLT_entity c : noLT (entity c) = true.
Proof.
  unfold entity.
  destruct (N.eqb c AMP); [reflexivity|].
  destruct (N.eqb c LT) eqn:E; [reflexivity|].
  destruct (N.eqb c GT); [reflexivity|].
  destruct (N.eqb c QUOT); [reflexivity|].
  destruct (N.eqb c APOS); [reflexivity|].
  rewrite noLT_cons, E. reflexivity.
Qed.

Lemma noLT_escapeHtml s : noLT (escapeHtml s) = true.
Proof.
  rewrite escapeHtml_escape_once. unfold escape_once.
  induction s as [|c s IH]; [reflexivity|].
  cbn [flat_map]. now rewrite noLT_app, noLT_entity, IH.
Qed.

Lemma noLT_join sep l :
  noLT sep = true -> Forall (fun x => noLT x = true) l -> noLT (join sep l) = true.
Proof.
  intros Hsep H. induction H as [|x l Hx Hl IH]; [reflexivity|].
  cbn [join]. destruct l as [|y l]; [assumption|].
  now rewrite !noLT_app, Hx, Hsep, IH.
Qed.

Ltac no_tag_in_s :=
  repeat (apply noTagInS_app);
  first [ reflexivity | assumption | apply noLT_noTagInS; assumption
        | apply noLT_noTagInS; apply noLT_escapeHtml ].

Lemma noTagInS_anchor href label :
  noLT href = true -> noTagInS label = true -> noTagInS (anchor href label) = true.
Proof. intros Hh Hl. unfold anchor. no_tag_in_s. Qed.

Lemma noTagInS_linkHtml v item link :
  linkHtml v item = Normal link -> noTagInS link = true.
Proof.
  unfold linkHtml. destruct (truthy (or_empty (url item))).
  - intros [= <-]. apply noTagInS_anchor; [apply noLT_escapeHtml | reflexivity].
  - destruct (truthy (or_empty (file item))); [|now intros [= <-]].
    pose proof (encodeURIComponent_wellFormed (or_empty (file item))) as H.
    destruct (wellFormed (or_empty (file item))).
    + destruct H as [r [-> Hr]]. cbn [bind].
      destruct v; intros [= <-]; [|reflexivity].
      apply noTagInS_anchor; [|reflexivity].
      change (noLT (lit "/uploads/" ++ r) = true).
      now rewrite noLT_app, Hr.
    + rewrite H. discriminate.
Qed.

Lemma noTagInS_tagsHtml item : noTagInS (tagsHtml item) = true.
Proof.
  unfold tagsHtml. destruct (tags item) as [[|t ts]|]; try reflexivity.
  assert (H : noLT (join (lit ", ") (map escapeHtml (t :: ts))) = true).
  { apply noLT_join; [reflexivity|]. apply Forall_forall.
    intros x Hx. apply in_map_iff in Hx. destruct Hx as [y [<- _]].
    apply noLT_escapeHtml. }
  no_tag_in_s.
Qed.

Lemma noTagInS_cardHtml t d tagsH linkH :
  noLT t = true -> noLT d = true -> noTagInS tagsH = true ->
  noTagInS linkH = true ->
  noTagInS (cardHtml t d tagsH linkH) = true.
Proof.
  intros Ht Hd Htags Hlink. unfold cardHtml.
  destruct (truthy linkH); no_tag_in_s.
Qed.

Lemma noTagInS_renderItem v item card :
  renderItem v item = Normal card -> noTagInS (node_markup card) = true.
Proof.
  unfold renderItem. destruct (linkHtml v item) as [link|e] eqn:E; [|discriminate].
  cbn [bind]. intros [= <-]. cbn [node_markup].
  apply noTagInS_cardHtml.
  - apply noLT_escapeHtml.
  - apply noLT_escapeHtml.
  - apply noTagInS_tagsHtml.
  - exact (noTagInS_linkHtml v item E).
Qed.

Lemma noTagInS_appendCards v items c :
  Forall (fun n => noTagInS (node_markup n) = true) c ->
  Forall (fun n => noTagInS (node_markup n) = true) (fst (appendCards v items c)).
Proof.
  revert c. induction items as [|item items IH]; intros c Hc; cbn [appendCards].
  - exact Hc.
  - destruct (renderItem v item) as [card|e] eqn:E; [|exact Hc].
    apply IH. apply Forall_app. split; [exact Hc|].
    constructor; [|constructor]. exact (noTagInS_renderItem v item E).
Qed.

(** Whatever the items, no markup the renderer leaves in the container
    holds a tag whose name starts with [s]. *)
Lemma noTagInS_renderResourceList v items c :
  Forall (fun n => noTagInS (node_markup n) = true)
    (fst (renderResourceList v items c)).
Proof.
  unfold renderResourceList.
  destruct items as [[|item items]|].
  - repeat constructor.
  - apply noTagInS_appendCards. constructor.
  - repeat constructor.
Qed.

(** ** The renderer *)

Lemma map_escapeHtml l : map escapeHtml l = map escape_once l.
Proof. apply map_ext. exact escapeHtml_escape_once. Qed.

Lemma linkHtml_renderable v item :
  if renderable item
  then exists link, linkHtml v item = Normal link
  else linkHtml v item = Throw URIError.
Proof.
  unfold renderable, linkHtml.
  destruct (truthy (or_empty (url item))); cbn [orb]; [now eexists|].
  destruct (truthy (or_empty (file item))); cbn [orb negb]; [|now eexists].
  pose proof (encodeURIComponent_wellFormed (or_empty (file item))) as H.
  destruct (wellFormed (or_empty (file item))).
  - destruct H as [r [-> _]]. cbn [bind]. destruct v; now eexists.
  - now rewrite H.
Qed.

Lemma renderItem_IsCardOf v item card :
  renderItem v item = Normal card -> IsCardOf v item card.
Proof.
  unfold renderItem, IsCardOf.
  destruct (linkHtml v item) as [link|e]; [|discriminate].
  cbn [bind]. intros [= <-]. exists link. split; [reflexivity|].
  unfold cardHtml, tagsHtml. rewrite !escapeHtml_escape_once.
  destruct (tags item) as [[|t ts]|]; cbn [or_nil]; try reflexivity.
  now rewrite map_escapeHtml.
Qed.

Lemma renderItem_renderable v item :
  if renderable item
  then exists card, renderItem v item = Normal card
  else renderItem v item = Throw URIError.
Proof.
  pose proof (linkHtml_renderable v item) as H. unfold renderItem.
  destruct (renderable item).
  - destruct H as [link ->]. cbn [bind]. now eexists.
  - now rewrite H.
Qed.

Lemma appendCards_all v items c :
  forallb renderable items = true ->
  exists cards,
    appendCards v items c = (c ++ cards, Normal tt) /\
    Forall2 (IsCardOf v) items cards.
Proof.
  revert c. induction items as [|item items IH]; intros c H.
  - exists []. cbn. now rewrite app_nil_r.
  - cbn [forallb] in H. apply andb_true_iff in H. destruct H as [Hi Hr].
    pose proof (renderItem_renderable v item) as Hc. rewrite Hi in Hc.
    destruct Hc as [card Hc].
    destruct (IH (c ++ [card]) Hr) as [cards [E F]].
    exists (card :: cards). cbn [appendCards]. rewrite Hc, E, <- app_assoc.
    split; [reflexivity|].
    constructor; [now apply renderItem_IsCardOf | exact F].
Qed.

Lemma appendCards_until v l1 bad l2 c :
  forallb renderable l1 = true ->
  renderable bad = false ->
  exists cards,
    appendCards v (l1 ++ bad :: l2) c = (c ++ cards, Throw URIError) /\
    Forall2 (IsCardOf v) l1 cards.
Proof.
  revert c. induction l1 as [|item l1 IH]; intros c H Hbad.
  - exists []. cbn [app appendCards].
    pose proof (renderItem_renderable v bad) as Hc. rewrite Hbad in Hc.
    rewrite Hc, app_nil_r. now split.
  - cbn [forallb] in H. apply andb_true_iff in H. destruct H as [Hi Hr].
    pose proof (renderItem_renderable v item) as Hc. rewrite Hi in Hc.
    destruct Hc as [card Hc].
    destruct (IH (c ++ [card]) Hr Hbad) as [cards [E F]].
    exists (card :: cards). cbn [app appendCards]. rewrite Hc, E, <- app_assoc.
    split; [reflexivity|].
    constructor; [now apply renderItem_IsCardOf | exact F].
Qed.

Lemma renderResourceList_all v l c :
  l <> [] ->
  forallb renderable l = true ->
  exists cards,
    renderResourceList v (Some l) c = (cards, Normal tt) /\
    Forall2 (IsCardOf v) l cards.
Proof.
  intros Hl H. destruct l as [|item l]; [congruence|].
  unfold renderResourceList.
  destruct (appendCards_all v (item :: l) (set_innerHTML []) H) as [cards [E F]].
  exists cards. split; [exact E | exact F].
Qed.

(** C6, as amended. [renderResourceList] discards the prior content of the
    container: what it leaves does not depend on it. For absent or empty
    items it leaves exactly the one message node and no card. For other
    items, when no item makes [encodeURIComponent] throw (each has a URL, or
    no file reference, or a well-formed one), it leaves exactly one card
    per item, in the order of the items, and returns; when an item does,
    it leaves the cards of the items before that one and throws. *)
Theorem renderResourceList_replaces_content
    (v : Variant) (items : option (list Resource)) (c : list Node) :
  (forall c', renderResourceList v items c = renderResourceList v items c') /\
  (items = None \/ items = Some [] ->
   renderResourceList v items c = ([Html noResults], Normal tt)) /\
  (forall l,
      items = Some l -> l <> [] -> forallb renderable l = true ->
      exists cards,
        renderResourceList v items c = (cards, Normal tt) /\
        Forall2 (IsCardOf v) l cards) /\
  (forall l1 bad l2,
      items = Some (l1 ++ bad :: l2) ->
      forallb renderable l1 = true -> renderable bad = false ->
      exists cards,
        renderResourceList v items c = (cards, Throw URIError) /\
        Forall2 (IsCardOf v) l1 cards).
Proof.
  split; [reflexivity|].
  split; [now intros [-> | ->]|].
  split.
  - intros l -> Hl H. now apply renderResourceList_all.
  - intros l1 bad l2 -> H Hbad.
    destruct (appendCards_until v l1 bad l2 (set_innerHTML []) H Hbad)
      as [cards [E F]].
    exists cards. split; [|exact F].
    unfold renderResourceList. destruct l1; exact E.
Qed.

Lemma renderResourceList_replaces_content_scenario :
  exists cards,
    renderResourceList Backend (Some [solarGuide; windReport])
      [Html noResults] = (cards, Normal tt) /\
    Forall2 (IsCardOf Backend) [solarGuide; windReport] cards.
Proof.
  apply (proj1 (proj2 (proj2
           (@renderResourceList_replaces_content Backend
              (Some [solarGuide; windReport]) [Html noResults])))
           [solarGuide; windReport]).
  - reflexivity.
  - discriminate.
  - reflexivity.
Defined.

(** C6 as stated fails on an item that has no URL and whose file reference
    holds an unpaired surrogate: [encodeURIComponent] throws, in both
    scripts, and the container is left without a card for the item. *)
Lemma renderResourceList_lone_surrogate_no_card :
  renderResourceList Backend (Some [loneSurrogateFile]) [Html noResults]
  = ([], Throw URIError) /\
  renderResourceList Pages (Some [loneSurrogateFile]) [Html noResults]
  = ([], Throw URIError) /\
  renderResourceList Pages (Some [solarGuide; loneSurrogateFile; windReport]) []
  = ([DivElement (lit "resource")
        (lit "<h3>Solar Guide</h3><p></p><p class=" ++ [QUOT] ++ lit "tags"
         ++ [QUOT] ++ lit ">Tags: energy</p>")],
     Throw URIError).
Proof. repeat split. Qed.

Example renderResourceList_empty c :
  renderResourceList Pages (Some []) c = ([Html noResults], Normal tt) /\
  renderResourceList Backend None c = ([Html noResults], Normal tt).
Proof. split; reflexivity. Qed.

Lemma noTagInS_flat_map (c : list Node) :
  Forall (fun n => noTagInS (node_markup n) = true) c ->
  noTagInS (flat_map node_markup c) = true.
Proof.
  induction 1 as [|n c Hn _ IH]; [reflexivity|].
  cbn [flat_map]. now apply noTagInS_app.
Qed.

Lemma appendCards_app v l1 :
  forallb renderable l1 = true ->
  exists cards,
    Forall2 (IsCardOf v) l1 cards /\
    forall rest c, appendCards v (l1 ++ rest) c = appendCards v rest (c ++ cards).
Proof.
  induction l1 as [|item l1 IH]; intros H.
  - exists []. split; [constructor|]. intros rest c. now rewrite app_nil_r.
  - cbn [forallb] in H. apply andb_true_iff in H. destruct H as [Hi Hr].
    pose proof (renderItem_renderable v item) as Hc. rewrite Hi in Hc.
    destruct Hc as [card Hc]. destruct (IH Hr) as [cards [F E]].
    exists (card :: cards). split.
    + constructor; [now apply renderItem_IsCardOf | exact F].
    + intros rest c. cbn [app appendCards]. rewrite Hc, E, <- app_assoc.
      reflexivity.
Qed.

Lemma appendCards_extends v l c :
  exists more, fst (appendCards v l c) = c ++ more.
Proof.
  revert c. induction l as [|item l IH]; intros c; cbn [appendCards].
  - exists []. now rewrite app_nil_r.
  - destruct (renderItem v item) as [card|e].
    + destruct (IH (c ++ [card])) as [more ->].
      exists (card :: more). now rewrite <- app_assoc.
    + exists []. now rewrite app_nil_r.
Qed.

(** C2, as amended. Let an item of the list have the title
    [<script>x</script>]. Whatever the other fields and the other items, no
    markup left in the container holds a literal [<script>], and none arises
    where the markup of one node meets that of the next. When neither the
    item nor an item before it makes [encodeURIComponent] throw, the
    container holds the card of the item: its markup starts with the heading
    [<h3>&lt;script&gt;x&lt;/script&gt;</h3>], so it holds [&lt;script&gt;],
    and its description and each of its tags are escaped the same way. *)
Theorem renderResourceList_escapes_script_title
    (v : Variant) (l1 l2 : list Resource) (c : list Node) (item : Resource) :
  title item = Some (lit "<script>x</script>") ->
  Forall (fun n => String_includes (node_markup n) (lit "<script>") = false)
    (fst (renderResourceList v (Some (l1 ++ item :: l2)) c)) /\
  String_includes
    (flat_map node_markup
       (fst (renderResourceList v (Some (l1 ++ item :: l2)) c)))
    (lit "<script>") = false /\
  (forallb renderable l1 = true -> renderable item = true ->
   exists card,
     In card (fst (renderResourceList v (Some (l1 ++ item :: l2)) c)) /\
     IsCardOf v item card /\
     startsWith (node_markup card)
       (lit "<h3>&lt;script&gt;x&lt;/script&gt;</h3>") = true /\
     String_includes (node_markup card) (lit "&lt;script&gt;") = true).
Proof.
  intros Htitle. split; [|split].
  - eapply Forall_impl; [|apply noTagInS_renderResourceList].
    intros n. apply noTagInS_no_script.
  - apply noTagInS_no_script, noTagInS_flat_map, noTagInS_renderResourceList.
  - intros H1 Hitem.
    destruct (appendCards_app v l1 H1) as [cards1 [_ E]].
    pose proof (renderItem_renderable v item) as Hc. rewrite Hitem in Hc.
    destruct Hc as [card Hc].
    assert (Hin : In card (fst (renderResourceList v (Some (l1 ++ item :: l2)) c))).
    { unfold renderResourceList.
      replace (Nat.eqb (List.length (l1 ++ item :: l2)) 0) with false
        by (now destruct l1).
      rewrite E. cbn [appendCards]. rewrite Hc.
      destruct (appendCards_extends v l2 ((set_innerHTML [] ++ cards1) ++ [card]))
        as [more ->].
      rewrite !in_app_iff. left. right. now left. }
    exists card. split; [exact Hin|].
    pose proof (renderItem_IsCardOf v item Hc) as Hof.
    split; [exact Hof|].
    destruct Hof as [link [_ ->]]. rewrite Htitle. cbn [node_markup or_empty].
    split.
    + apply startsWith_prefix. eexists.
      change (escape_once (lit "<script>x</script>"))
        with (lit "&lt;script&gt;x&lt;/script&gt;").
      change (lit "</h3><p>") with (lit "</h3>" ++ lit "<p>").
      rewrite <- !app_assoc. reflexivity.
    + apply String_includes_substring. exists (lit "<h3>"). eexists.
      change (escape_once (lit "<script>x</script>"))
        with (lit "&lt;script&gt;" ++ lit "x&lt;/script&gt;").
      rewrite <- !app_assoc. reflexivity.
Qed.

Lemma renderResourceList_escapes_script_title_example :
  Forall (fun n => String_includes (node_markup n) (lit "<script>") = false)
    (fst (renderResourceList Backend (Some [solarGuide; scriptTitle]) [])) /\
  String_includes
    (flat_map node_markup
       (fst (renderResourceList Backend (Some [solarGuide; scriptTitle]) [])))
    (lit "<script>") = false /\
  exists card,
    In card (fst (renderResourceList Backend (Some [solarGuide; scriptTitle]) [])) /\
    IsCardOf Backend scriptTitle card /\
    startsWith (node_markup card)
      (lit "<h3>&lt;script&gt;x&lt;/script&gt;</h3>") = true /\
    String_includes (node_markup card) (lit "&lt;script&gt;") = true.
Proof.
  pose proof (@renderResourceList_escapes_script_title Backend
                [solarGuide] [] [] scriptTitle eq_refl) as H.
  destruct H as [H1 [H2 H3]].
  split; [exact H1|]. split; [exact H2 | exact (H3 eq_refl eq_refl)].
Defined.

(** C2 as stated fails on an item with that title that has no URL and whose
    file reference holds an unpaired surrogate: the renderer throws and no
    markup with the escaped title is produced. *)
Lemma renderResourceList_script_title_lone_surrogate :
  title scriptTitleLoneSurrogate = Some (lit "<script>x</script>") /\
  renderResourceList Backend (Some [scriptTitleLoneSurrogate]) []
  = ([], Throw URIError) /\
  renderResourceList Pages (Some [scriptTitleLoneSurrogate]) []
  = ([], Throw URIError) /\
  existsb (fun n => String_includes (node_markup n) (lit "&lt;script&gt;"))
    (fst (renderResourceList Pages (Some [scriptTitleLoneSurrogate]) []))
  = false.
Proof. repeat split. Qed.

Example renderResourceList_scriptTitle :
  renderResourceList Backend (Some [scriptTitle]) [Html noResults]
  = ([DivElement (lit "resource")
        (lit "<h3>&lt;script&gt;x&lt;/script&gt;</h3>"
         ++ lit "<p>a &lt;b&gt; &amp; c</p>"
         ++ lit "<p class=" ++ [QUOT] ++ lit "tags" ++ [QUOT]
         ++ lit ">Tags: &lt;i&gt;</p>"
         ++ lit "<p><a href=" ++ [QUOT]
         ++ lit "https://example.org/?a=1&amp;b=2" ++ [QUOT]
         ++ lit " target=" ++ [QUOT] ++ lit "_blank" ++ [QUOT]
         ++ lit " rel=" ++ [QUOT] ++ lit "noopener noreferrer" ++ [QUOT]
         ++ lit ">Bekijk bron</a></p>")],
     Normal tt).
Proof. reflexivity. Qed.

(** ** The resources page *)

Lemma Set_add_In s t x : In x (Set_add s t) <-> In x s \/ x = t.
Proof.
  unfold Set_add. destruct (Array_includes s t) eqn:E.
  - apply Array_includes_In in E. split; [now left|].
    intros [H | ->]; assumption.
  - rewrite in_app_iff. cbn [In]. split.
    + intros [H | [<- | []]]; [now left | now right].
    + intros [H | ->]; [now left | right; now left].
Qed.


Lemma fold_Set_add_In l s x :
  In x (fold_left Set_add l s) <-> In x s \/ In x l.
Proof.
  revert s. induction l as [|t l IH]; intros s; cbn [fold_left In].
  - tauto.
  - rewrite IH, Set_add_In. intuition congruence.
Qed.


Lemma fold_tags_In R s x :
  In x (fold_left (fun s r => fold_left Set_add (or_nil (tags r)) s) R s)
  <-> In x s \/ exists r, In r R /\ In x (or_nil (tags r)).
Proof.
  revert s. induction R as [|r R IH]; intros s; cbn [fold_left].
  - split; [now left | intros [H | [r [[] _]]]; assumption].
  - rewrite IH, fold_Set_add_In. split.
    + intros [[H | H] | [r' [Hr' H]]].
      * now left.
      * right. exists r. split; [now left | assumption].
      * right. exists r'. split; [now right | assumption].
    + intros [H | [r' [[<- | Hr'] H]]].
      * left. now left.
      * left. now right.
      * right. now exists r'.
Qed.


(** The set of tags holds a string exactly when some resource carries that
    very string, and holds it once. *)
Lemma distinctTags_In R x :
  In x (distinctTags R) <-> exists r, In r R /\ In x (or_nil (tags r)).
Proof.
  unfold distinctTags. rewrite fold_tags_In. cbn [In]. tauto.
Qed.


Lemma map_update_nth (A B : Type) (f : A -> B) (g : A -> A) i l :
  (forall x, f (g x) = f x) -> map f (update_nth g i l) = map f l.
Proof.
  intros H. revert i. induction l as [|x l IH]; intros [|i]; cbn; try reflexivity.
  - now rewrite H.
  - now rewrite IH.
Qed.

Lemma renderResourceList_prior v items c c' :
  renderResourceList v items c = renderResourceList v items c'.
Proof. reflexivity. Qed.

Section ResourcesProperties.
Context {host : Host}.
Variable v : Variant.

Lemma tagFilter_exact R g :
  g <> [] ->
  exists keep : Resource -> bool,
    (forall r, keep r = true <-> TagMatches g r) /\
    tagFilter R g = filter keep R.
Proof.
  intros Hg. exists (matchesTag g). split.
  - intros r. apply matchesTag_TagMatches.
  - unfold tagFilter. apply truthy_true in Hg. now rewrite Hg.
Qed.

Lemma filterDiv_click_Registered R tagsOf target p :
  Registered R tagsOf p ->
  Registered R tagsOf (fst (filterDiv_click v target p)).
Proof.
  intros [HR [[c Hc] [buttons [Hb Htags]]]].
  unfold filterDiv_click. rewrite HR, Hb, Hc.
  destruct target as [i|]; [|repeat split; eauto].
  destruct (nth_error buttons i) as [btn|]; [|repeat split; eauto].
  destruct (renderResourceList v
              (Some (tagFilter R (or_empty (dataset_tag btn)))) c)
    as [c' r].
  cbn [fst]. split; [reflexivity|]. split; [now exists c'|].
  eexists. split; [reflexivity|].
  rewrite map_update_nth by reflexivity.
  rewrite map_map. cbn [deactivate dataset_tag]. exact Htags.
Qed.

Lemma filterDiv_clicks_Registered R tagsOf targets p :
  Registered R tagsOf p ->
  Registered R tagsOf (filterDiv_clicks v targets p).
Proof.
  unfold filterDiv_clicks. revert p.
  induction targets as [|t targets IH]; intros p H; cbn [fold_left].
  - assumption.
  - apply IH. now apply filterDiv_click_Registered.
Qed.

Lemma filterDiv_click_shows R tagsOf i tag p :
  Registered R tagsOf p ->
  nth_error tagsOf i = Some tag ->
  listDiv (fst (filterDiv_click v (Some i) p))
  = Some (fst (renderResourceList v
                 (Some (tagFilter R (or_empty tag))) [])).
Proof.
  intros [HR [[c Hc] [buttons [Hb Htags]]]] Hi.
  unfold filterDiv_click. rewrite HR, Hb, Hc.
  rewrite <- Htags, nth_error_map in Hi.
  destruct (nth_error buttons i) as [btn|]; [|discriminate].
  cbn [option_map] in Hi. injection Hi as <-.
  rewrite (renderResourceList_prior v _ c []).
  now destruct (renderResourceList v _ []).
Qed.


Lemma initResources_buttons R c buttons :
  forallb renderable R = true ->
  exists cards,
    initResources v (Fulfilled R)
      {| listDiv := Some c; filterDiv := Some buttons; listener := None |}
    = ({| listDiv := Some cards;
          filterDiv := Some ((buttons ++ [allBtn])
                             ++ map tagButton (distinctTags R));
          listener := Some R |}, Normal tt).
Proof.
  intros H. unfold initResources, initResources_then. cbn [filterDiv listDiv].
  destruct R as [|r R].
  - eexists. reflexivity.
  - destruct (renderResourceList_all v c (l := r :: R)) as [cards [E _]];
      [discriminate | assumption |].
    rewrite E. now exists cards.
Qed.

(** C5. For a non-empty tag the tag filter returns exactly the resources
    some element of whose tag sequence, an absent sequence read as empty,
    equals the tag case-insensitively; for the empty tag it returns the
    whole collection; and after any sequence of clicks on the filter
    container, a click on a button shows the rendering of the original
    collection [R] filtered by the tag of that button, whatever was
    filtered before; [R] is the collection [initResources] received. *)
Theorem tagFilter_on_original_collection (R : list Resource) :
  (forall g,
      g <> [] ->
      exists keep : Resource -> bool,
        (forall r, keep r = true <-> TagMatches g r) /\
        tagFilter R g = filter keep R) /\
  tagFilter R [] = R /\
  (forall c buttons targets i btn,
      nth_error buttons i = Some btn ->
      let p := filterDiv_clicks v targets
                 {| listDiv := Some c; filterDiv := Some buttons;
                    listener := Some R |} in
      listener p = Some R /\
      listDiv (fst (filterDiv_click v (Some i) p))
      = Some (fst (renderResourceList v
                     (Some (tagFilter R (or_empty (dataset_tag btn)))) []))) /\
  (forall c buttons,
      forallb renderable R = true ->
      listener (fst (initResources v (Fulfilled R)
                       {| listDiv := Some c; filterDiv := Some buttons;
                          listener := None |})) = Some R).
Proof.
  split; [intros g; apply tagFilter_exact|].
  split; [reflexivity|].
  split; [|intros c buttons H;
           destruct (initResources_buttons R c buttons H) as [cards ->];
           reflexivity].
  intros c buttons targets i btn Hi p.
  assert (H0 : Registered R (map dataset_tag buttons)
                 {| listDiv := Some c; filterDiv := Some buttons;
                    listener := Some R |}).
  { split; [reflexivity|]. split; [now exists c|]. now exists buttons. }
  pose proof (filterDiv_clicks_Registered targets H0) as H.
  fold p in H. split; [apply H|].
  apply (filterDiv_click_shows i H).
  rewrite nth_error_map, Hi. reflexivity.
Qed.



End ResourcesProperties.

(** The scenario of the specification: the tag [policy] selects exactly the
    second record. *)
Example tag_policy :
  tagFilter (host := asciiHost) [solarGuide; windReport] (lit "policy")
  = [windReport] /\
  tagFilter (host := asciiHost) [solarGuide; windReport] (lit "ENERGY")
  = [solarGuide; windReport].
Proof. split; reflexivity. Qed.

(** After a click on [policy], a click on [energy] shows both records again:
    the second filter is not applied to the result of the first. *)
Example click_policy_then_energy :
  let p0 := fst (initResources Pages (Fulfilled [solarGuide; windReport])
                   emptyResourcesPage) in
  let p1 := fst (filterDiv_click (host := asciiHost) Pages (Some 2) p0) in
  let p2 := fst (filterDiv_click (host := asciiHost) Pages (Some 1) p1) in
  option_map (map dataset_tag) (filterDiv p0)
  = Some [None; Some (lit "energy"); Some (lit "policy")] /\
  option_map (@List.length Node) (listDiv p1) = Some 1 /\
  listDiv p2 = listDiv p0 /\
  option_map (map classList) (filterDiv p2)
  = Some [[]; [lit "active"]; []].
Proof. repeat split. Qed.

Lemma tagFilter_on_original_collection_policy :
  exists keep : Resource -> bool,
    (forall r, keep r = true <-> TagMatches (host := asciiHost) (lit "policy") r) /\
    tagFilter (host := asciiHost) [solarGuide; windReport] (lit "policy")
    = filter keep [solarGuide; windReport].
Proof.
  apply (proj1 (@tagFilter_on_original_collection asciiHost Pages
                  [solarGuide; windReport]) (lit "policy")).
  discriminate.
Defined.

Example distinctTags_mixedCase :
  distinctTags mixedCase = [lit "Energy"; lit "energy"; lit "policy"].
Proof. reflexivity. Qed.

(** In [mixedCaseAndOther] the two spellings select the first and the third
    resource and leave the second out. *)
Example tagFilter_mixedCaseAndOther :
  tagFilter (host := asciiHost) mixedCaseAndOther (lit "Energy")
  = [zonnepanelen; windReport] /\
  tagFilter (host := asciiHost) mixedCaseAndOther (lit "energy")
  = [zonnepanelen; windReport] /\
  distinctTags mixedCaseAndOther
  = [lit "Energy"; lit "water"; lit "energy"; lit "policy"].
Proof. repeat split. Qed.


(** Clicks on the two buttons of the page built from [mixedCaseAndOther]:
    each shows the two matching resources, not the three of the
    collection. *)
Example click_Energy_or_energy :
  let p0 := fst (initResources Pages (Fulfilled mixedCaseAndOther)
                   emptyResourcesPage) in
  option_map (map dataset_tag) (filterDiv p0)
  = Some [None; Some (lit "Energy"); Some (lit "water");
          Some (lit "energy"); Some (lit "policy")] /\
  option_map (@List.length Node) (listDiv p0) = Some 3 /\
  listDiv (fst (filterDiv_click (host := asciiHost) Pages (Some 1) p0))
  = Some (fst (renderResourceList Pages (Some [zonnepanelen; windReport]) [])) /\
  listDiv (fst (filterDiv_click (host := asciiHost) Pages (Some 3) p0))
  = Some (fst (renderResourceList Pages (Some [zonnepanelen; windReport]) [])) /\
  option_map (@List.length Node)
    (listDiv (fst (filterDiv_click (host := asciiHost) Pages (Some 3) p0)))
  = Some 2.
Proof. repeat split. Qed.

(** ** The model on concrete inputs *)

Example trim_spaces :
  trim (lit "  a b  ") = lit "a b" /\
  trim ([160; 8232]%N ++ lit "x" ++ [65279]%N) = lit "x".
Proof. split; reflexivity. Qed.

Example String_includes_examples :
  String_includes (lit "solar guide") (lit "lar g") = true /\
  String_includes (lit "solar guide") (lit "lar  g") = false /\
  String_includes (lit "abc") [] = true.
Proof. repeat split. Qed.

Example join_examples :
  join (lit ", ") [lit "a"; lit "b"; lit "c"] = lit "a, b, c" /\
  join (lit ", ") [lit "a"] = lit "a" /\
  join (lit ", ") [] = [].
Proof. repeat split. Qed.

Example escapeHtml_twice :
  escapeHtml (lit "a&b<c>d") = lit "a&amp;b&lt;c&gt;d" /\
  escapeHtml (escapeHtml (lit "<")) = lit "&amp;lt;".
Proof. split; reflexivity. Qed.

(** A search for [solar] on the home page of the GitHub Pages script: the
    click on a type button fetches, and the answer is filtered and
    rendered. *)
Example home_search_solar :
  let p0 := {| value := lit " solar "; typeSelect := Some [lit "hidden"];
               resultsDiv := Some []; world := initialWorld; waiting := [] |} in
  let p1 := fst (searchBtn_click p0) in
  let p2 := fst (typeSelect_click (host := asciiHost) (Some (Some (lit "PDF"))) p1) in
  let p3 := fst (typeSelect_settle (host := asciiHost)
                   (Fulfilled [solarGuide; windReport]) p2) in
  world p2 = {| cachedData := None; fetches := 1; suspended := 1 |} /\
  waiting p2 = [(lit "solar", lit "PDF")] /\
  world p3 = loaded [solarGuide; windReport] /\
  resultsDiv p3
  = Some (fst (renderResourceList Pages (Some [solarGuide]) [])).
Proof. repeat split. Qed.

Example render_file_link :
  let item := {| title := None; description := None; type := None;
                 tags := Some []; url := None;
                 file := Some (lit "my file.pdf") |} in
  renderResourceList Backend (Some [item]) []
  = ([DivElement (lit "resource")
        (lit "<h3></h3><p></p><p>"
         ++ anchor (lit "/uploads/my%20file.pdf") (lit "Download")
         ++ lit "</p>")], Normal tt) /\
  renderResourceList Pages (Some [item]) []
  = ([DivElement (lit "resource") (lit "<h3></h3><p></p>")], Normal tt).
Proof. split; reflexivity. Qed.

(** * Part III: further properties of the code *)

(** ** [escapeHtml] *)

Lemma noneOf_app bad a b : noneOf bad (a ++ b) = noneOf bad a && noneOf bad b.
Proof. apply forallb_app. Qed.

Lemma reserved_cases c :
  reservedChar c = true ->
  c = AMP \/ c = LT \/ c = GT \/ c = QUOT \/ c = APOS.
Proof.
  unfold reservedChar. cbn [existsb].
  rewrite !orb_true_iff, !N.eqb_eq. intuition discriminate.
Qed.

Lemma entity_plain c : reservedChar c = false -> entity c = [c].
Proof.
  unfold reservedChar, entity. cbn [existsb].
  rewrite !orb_false_iff. intros (-> & -> & -> & -> & -> & _). reflexivity.
Qed.

Lemma entity_reserved c :
  reservedChar c = true ->
  exists tail, entity c = AMP :: tail /\ 3 <= List.length tail.
Proof.
  intros H. destruct (reserved_cases c H) as [-> | [-> | [-> | [-> | ->]]]];
    eexists; (split; [reflexivity | cbn; lia]).
Qed.

Lemma noneOf_entity c : noneOf [LT; GT; QUOT; APOS] (entity c) = true.
Proof.
  destruct (reservedChar c) eqn:E.
  - destruct (reserved_cases c E) as [-> | [-> | [-> | [-> | ->]]]]; reflexivity.
  - rewrite (entity_plain c E). unfold reservedChar in E. cbn [existsb] in E.
    rewrite !orb_false_iff in E. destruct E as (_ & E1 & E2 & E3 & E4 & _).
    unfold noneOf. cbn [forallb existsb]. now rewrite E1, E2, E3, E4.
Qed.

Lemma escapeHtml_noneOf s : noneOf [LT; GT; QUOT; APOS] (escapeHtml s) = true.
Proof.
  rewrite escapeHtml_escape_once. unfold escape_once.
  induction s as [|c s IH]; [reflexivity|].
  cbn [flat_map]. now rewrite noneOf_app, noneOf_entity, IH.
Qed.

(** X1. Whatever the input, the result of [escapeHtml] holds no [<], no
    [>], no double quote and no single quote. *)
Theorem escapeHtml_output_has_no_markup_character (s : jsstring) :
  noneOf [LT; GT; QUOT; APOS] (escapeHtml s) = true.
Proof. apply escapeHtml_noneOf. Qed.

Lemma entity_prefix_inj c1 c2 r1 r2 :
  entity c1 ++ r1 = entity c2 ++ r2 -> c1 = c2 /\ r1 = r2.
Proof.
  destruct (reservedChar c1) eqn:E1, (reservedChar c2) eqn:E2.
  - destruct (reserved_cases c1 E1) as [-> | [-> | [-> | [-> | ->]]]];
      destruct (reserved_cases c2 E2) as [-> | [-> | [-> | [-> | ->]]]];
      cbn; intros H; try discriminate H; injection H as ->; now split.
  - rewrite (entity_plain c2 E2).
    destruct (entity_reserved c1 E1) as [tail [-> _]].
    cbn. intros [= <- _]. discriminate E2.
  - rewrite (entity_plain c1 E1).
    destruct (entity_reserved c2 E2) as [tail [-> _]].
    cbn. intros [= -> _]. discriminate E1.
  - rewrite (entity_plain c1 E1), (entity_plain c2 E2).
    cbn. intros [= -> ->]. now split.
Qed.

Lemma escape_once_inj s1 s2 : escape_once s1 = escape_once s2 -> s1 = s2.
Proof.
  revert s2. induction s1 as [|c1 s1 IH]; intros [|c2 s2]; cbn [escape_once flat_map].
  - reflexivity.
  - intros H. exfalso. destruct (reservedChar c2) eqn:E.
    + destruct (entity_reserved c2 E) as [tail [Ht _]].
      unfold escape_once in H. rewrite Ht in H. discriminate H.
    + rewrite (entity_plain c2 E) in H. discriminate H.
  - intros H. exfalso. destruct (reservedChar c1) eqn:E.
    + destruct (entity_reserved c1 E) as [tail [Ht _]].
      unfold escape_once in H. rewrite Ht in H. discriminate H.
    + rewrite (entity_plain c1 E) in H. discriminate H.
  - intros H. apply entity_prefix_inj in H. destruct H as [-> H].
    f_equal. now apply IH.
Qed.

(** X2. [escapeHtml] loses nothing: two strings with the same escaped form
    are the same string. *)
Theorem escapeHtml_injective (s1 s2 : jsstring) :
  escapeHtml s1 = escapeHtml s2 -> s1 = s2.
Proof.
  rewrite !escapeHtml_escape_once. apply escape_once_inj.
Qed.

Lemma escapeHtml_injective_example :
  lit "a<b" = [97; 60; 98]%N.
Proof.
  apply (@escapeHtml_injective (lit "a<b") [97; 60; 98]%N). reflexivity.
Defined.

(** X3. Escaping a concatenation is concatenating the escaped parts. *)
Theorem escapeHtml_app (a b : jsstring) :
  escapeHtml (a ++ b) = escapeHtml a ++ escapeHtml b.
Proof.
  rewrite !escapeHtml_escape_once. apply flat_map_app.
Qed.

Lemma escape_once_length s :
  List.length s <= List.length (escape_once s) /\
  (List.length (escape_once s) = List.length s ->
   noneOf [AMP; LT; GT; QUOT; APOS] s = true).
Proof.
  induction s as [|c s [IH1 IH2]]; [split; [cbn; lia | reflexivity]|].
  cbn [escape_once flat_map]. fold (escape_once s).
  rewrite length_app. cbn [List.length].
  destruct (reservedChar c) eqn:E.
  - destruct (entity_reserved c E) as [tail [-> Ht]]. cbn [List.length].
    split; lia.
  - rewrite (entity_plain c E). cbn [List.length]. split; [lia|].
    intros H. unfold noneOf. cbn [forallb]. fold (noneOf [AMP; LT; GT; QUOT; APOS] s).
    rewrite IH2 by lia.
    unfold reservedChar in E. now rewrite E.
Qed.

Lemma escape_once_plain s :
  noneOf [AMP; LT; GT; QUOT; APOS] s = true -> escape_once s = s.
Proof.
  induction s as [|c s IH]; [reflexivity|].
  unfold noneOf. cbn [forallb]. fold (noneOf [AMP; LT; GT; QUOT; APOS] s).
  rewrite andb_true_iff, negb_true_iff. intros [Hc Hs].
  cbn [escape_once flat_map]. fold (escape_once s).
  rewrite (entity_plain c Hc), (IH Hs). reflexivity.
Qed.

Lemma escape_once_keeps_reserved s :
  noneOf [AMP; LT; GT; QUOT; APOS] (escape_once s) = true ->
  noneOf [AMP; LT; GT; QUOT; APOS] s = true.
Proof.
  induction s as [|c s IH]; [reflexivity|].
  cbn [escape_once flat_map]. fold (escape_once s).
  rewrite noneOf_app, andb_true_iff. intros [Hc Hs].
  unfold noneOf at 1. cbn [forallb]. fold (noneOf [AMP; LT; GT; QUOT; APOS] s).
  rewrite (IH Hs), andb_true_r.
  destruct (reservedChar c) eqn:E.
  - destruct (entity_reserved c E) as [tail [Ht _]]. rewrite Ht in Hc.
    discriminate Hc.
  - unfold reservedChar in E. now rewrite E.
Qed.

(** X4. [escapeHtml] returns its argument unchanged exactly when the
    argument holds none of the five reserved characters, and escaping a
    second time changes nothing exactly in that case: on every other string
    a second pass escapes the ampersands of the first. *)
Theorem escapeHtml_fixed_iff_no_reserved (s : jsstring) :
  (escapeHtml s = s <-> noneOf [AMP; LT; GT; QUOT; APOS] s = true) /\
  (escapeHtml (escapeHtml s) = escapeHtml s
   <-> noneOf [AMP; LT; GT; QUOT; APOS] s = true).
Proof.
  rewrite !escapeHtml_escape_once.
  assert (F : forall t, escape_once t = t
                        <-> noneOf [AMP; LT; GT; QUOT; APOS] t = true).
  { intros t. split.
    - intros H. apply (proj2 (escape_once_length t)). now rewrite H.
    - apply escape_once_plain. }
  split; [apply F|].
  rewrite F. split.
  - apply escape_once_keeps_reserved.
  - intros H. now rewrite (escape_once_plain s H).
Qed.

(** ** Links *)

Lemma hexDigit_range n :
  (48 <= hexDigit n <= 57 \/ 65 <= hexDigit n)%N.
Proof. unfold hexDigit. destruct (N.ltb_spec n 10); lia. Qed.

Lemma neverEncoded_spec c :
  neverEncoded c = true ->
  isUnescaped c = false /\ c <> 37%N /\ (forall n, hexDigit n <> c).
Proof.
  unfold neverEncoded.
  rewrite !andb_true_iff, !negb_true_iff, orb_true_iff, andb_true_iff,
    !N.ltb_lt, N.eqb_neq.
  intros [[Hu H37] Hr]. split; [exact Hu|]. split; [exact H37|].
  intros n. pose proof (hexDigit_range n). lia.
Qed.

Lemma noneOf_single c s : noneOf [c] s = true <-> ~ In c s.
Proof.
  unfold noneOf. rewrite forallb_forall. cbn [existsb]. split.
  - intros H Hin. specialize (H c Hin). rewrite N.eqb_refl in H. discriminate.
  - intros H x Hx. rewrite orb_false_r. apply negb_true_iff, N.eqb_neq.
    intros ->. contradiction.
Qed.

Lemma In_percent c octets :
  In c (flat_map percent octets) -> c = 37%N \/ exists n, c = hexDigit n.
Proof.
  induction octets as [|o os IH]; cbn [flat_map]; [contradiction|].
  rewrite in_app_iff. intros [H | H]; [|now apply IH].
  unfold percent in H. cbn [In] in H.
  destruct H as [<- | [<- | [<- | []]]]; [now left | right | right]; eauto.
Qed.

(** What [encodeURIComponent] returns holds no character that is never
    encoded. *)
Lemma encodeURIComponent_avoids c s r :
  neverEncoded c = true -> encodeURIComponent s = Normal r -> ~ In c r.
Proof.
  intros Hc. apply neverEncoded_spec in Hc. destruct Hc as (Hu & H37 & Hhex).
  assert (Hp : forall octets, ~ In c (flat_map percent octets)).
  { intros octets H. apply In_percent in H. destruct H as [-> | [n ->]].
    - now apply H37.
    - now apply (Hhex n). }
  revert r. induction s as [|x rest IH1 IH2] using list_ind_two; intros r.
  - intros [= <-]. intros [].
  - cbn [encodeURIComponent].
    destruct (isUnescaped x) eqn:Ex.
    + destruct (encodeURIComponent rest) as [r'|]; [|discriminate].
      cbn [bind]. intros [= <-] [<- | H]; [congruence | now apply (IH1 r')].
    + destruct (isTrailSurrogate x); [discriminate|].
      destruct (isLeadSurrogate x).
      * destruct rest as [|d rest']; [discriminate|].
        destruct (isTrailSurrogate d); [|discriminate].
        destruct (encodeURIComponent rest') as [r'|] eqn:E; [|discriminate].
        cbn [bind]. intros [= <-]. rewrite in_app_iff. intros [H | H].
        -- now apply (Hp _ H).
        -- now apply (IH2 d rest' eq_refl r').
      * destruct (encodeURIComponent rest) as [r'|]; [|discriminate].
        cbn [bind]. intros [= <-]. rewrite in_app_iff. intros [H | H].
        -- now apply (Hp _ H).
        -- now apply (IH1 r').
Qed.

Lemma count_occ_noneOf c s :
  noneOf [c] s = true -> count_occ N.eq_dec s c = 0.
Proof. rewrite noneOf_single. apply count_occ_not_In. Qed.

Lemma noneOf_sub bad bad' s :
  incl bad' bad -> noneOf bad s = true -> noneOf bad' s = true.
Proof.
  intros Hi. unfold noneOf. rewrite !forallb_forall. intros H x Hx.
  specialize (H x Hx). apply negb_true_iff in H. apply negb_true_iff.
  destruct (existsb (N.eqb x) bad') eqn:E; [|reflexivity].
  apply existsb_exists in E. destruct E as [y [Hy E]].
  assert (existsb (N.eqb x) bad = true)
    by (apply existsb_exists; exists y; split; [now apply Hi | assumption]).
  congruence.
Qed.

Lemma count_QUOT_anchor href :
  noneOf [QUOT] href = true ->
  count_occ N.eq_dec (anchor href (lit "Bekijk bron")) QUOT = 6 /\
  count_occ N.eq_dec (anchor href (lit "Download")) QUOT = 6.
Proof.
  intros H. apply count_occ_noneOf in H. unfold anchor.
  rewrite !count_occ_app, H. split; reflexivity.
Qed.

(** X5. In both scripts the link markup of an item, when there is one, holds
    exactly the six double quotes of its three attributes: neither a URL nor
    a file reference can close the [href] attribute. *)
Theorem linkHtml_six_quotes (v : Variant) (item : Resource) (link : jsstring) :
  linkHtml v item = Normal link ->
  link = [] \/ count_occ N.eq_dec link QUOT = 6.
Proof.
  unfold linkHtml. destruct (truthy (or_empty (url item))).
  - intros [= <-]. right. apply count_QUOT_anchor.
    apply (noneOf_sub (bad := [LT; GT; QUOT; APOS])); [|apply escapeHtml_noneOf].
    intros x [<- | []]. cbn. tauto.
  - destruct (truthy (or_empty (file item))); [|intros [= <-]; now left].
    destruct (encodeURIComponent (or_empty (file item))) as [enc|] eqn:E;
      [|discriminate].
    cbn [bind]. destruct v; intros [= <-]; [right | now left].
    apply count_QUOT_anchor. apply noneOf_single.
    intros H. cbn in H.
    repeat (destruct H as [H | H]; [discriminate H|]).
    now apply (@encodeURIComponent_avoids QUOT _ _ eq_refl E).
Qed.

Lemma linkHtml_six_quotes_example :
  anchor (escapeHtml (lit "https://example.org/?a=1&b=2")) (lit "Bekijk bron") = []
  \/ count_occ N.eq_dec
       (anchor (escapeHtml (lit "https://example.org/?a=1&b=2")) (lit "Bekijk bron"))
       QUOT = 6.
Proof.
  apply (@linkHtml_six_quotes Backend scriptTitle). reflexivity.
Defined.

(** X6. For an item without URL whose file reference is not empty and holds
    no unpaired surrogate, the GitHub Pages script renders no link at all,
    and src/script.js renders a [Download] link to [/uploads/] followed by
    the encoded file reference, in which there is no slash, quote, angle
    bracket, ampersand, question mark, hash or space. *)
Theorem linkHtml_file_by_variant (item : Resource) :
  truthy (or_empty (url item)) = false ->
  truthy (or_empty (file item)) = true ->
  wellFormed (or_empty (file item)) = true ->
  linkHtml Pages item = Normal [] /\
  exists enc,
    encodeURIComponent (or_empty (file item)) = Normal enc /\
    linkHtml Backend item
    = Normal (anchor (lit "/uploads/" ++ enc) (lit "Download")) /\
    noneOf [SLASH; QUOT; LT; GT; AMP; 63; 35; 32]%N enc = true.
Proof.
  intros Hu Hf Hw. unfold linkHtml. rewrite Hu, Hf.
  pose proof (encodeURIComponent_wellFormed (or_empty (file item))) as H.
  rewrite Hw in H. destruct H as [enc [E _]]. rewrite E. cbn [bind].
  split; [reflexivity|]. exists enc. split; [reflexivity|]. split; [reflexivity|].
  unfold noneOf. apply forallb_forall. intros x Hx.
  apply negb_true_iff. destruct (existsb (N.eqb x) _) eqn:Ex; [|reflexivity].
  exfalso. apply existsb_exists in Ex. destruct Ex as [y [Hy Exy]].
  apply N.eqb_eq in Exy. subst y.
  assert (Hn : neverEncoded x = true).
  { cbn [In] in Hy.
    destruct Hy as [<- | [<- | [<- | [<- | [<- | [<- | [<- | [<- | []]]]]]]]];
      reflexivity. }
  exact (@encodeURIComponent_avoids x _ _ Hn E Hx).
Qed.

Lemma linkHtml_file_by_variant_example :
  linkHtml Pages fileOnly = Normal [] /\
  exists enc,
    encodeURIComponent (or_empty (file fileOnly)) = Normal enc /\
    linkHtml Backend fileOnly
    = Normal (anchor (lit "/uploads/" ++ enc) (lit "Download")) /\
    noneOf [SLASH; QUOT; LT; GT; AMP; 63; 35; 32]%N enc = true.
Proof.
  apply (@linkHtml_file_by_variant fileOnly); reflexivity.
Defined.

(** ** The filter, both constraints *)

Lemma filter_filter_andb (A : Type) (f g : A -> bool) (l : list A) :
  filter g (filter f l) = filter (fun x => f x && g x) l.
Proof.
  induction l as [|x l IH]; [reflexivity|].
  cbn [filter]. destruct (f x); cbn [filter andb]; now rewrite IH.
Qed.

Lemma filter_all (A : Type) (l : list A) : filter (fun _ => true) l = l.
Proof. induction l as [|x l IH]; [reflexivity|]. cbn. now rewrite IH. Qed.

Lemma filter_twice (A : Type) (f : A -> bool) (l : list A) :
  filter f (filter f l) = filter f l.
Proof.
  rewrite filter_filter_andb. apply filter_ext. intros x. now destruct (f x).
Qed.

Section FilterComposition.
Context {host : Host}.

Lemma fetchResources_then_filter q t :
  exists keep : Resource -> bool,
    forall R, fetchResources_then q t R = filter keep R.
Proof.
  unfold fetchResources_then.
  destruct (truthy q), (truthy t).
  - eexists. intros R. apply filter_filter_andb.
  - now eexists.
  - now eexists.
  - exists (fun _ => true). intros R. now rewrite filter_all.
Qed.

(** X7. With a non-empty query and a non-empty type the filter of the
    GitHub Pages script returns, in order, exactly the resources that match
    the query (in the title or the description) and whose type equals the
    given type, both case-insensitively. *)
Theorem fetchResources_then_query_and_type (R : list Resource) (q t : jsstring) :
  q <> [] -> t <> [] ->
  exists keep : Resource -> bool,
    (forall r, keep r = true
               <-> QueryMatches q r /\ EqualsCI (or_empty (type r)) t) /\
    fetchResources_then q t R = filter keep R.
Proof.
  intros Hq Ht. apply truthy_true in Hq, Ht.
  exists (fun r => matchesQuery (toLowerCase q) r && matchesType (toLowerCase t) r).
  split.
  - intros r. now rewrite andb_true_iff, matchesQuery_QueryMatches,
      matchesType_EqualsCI.
  - unfold fetchResources_then. rewrite Hq, Ht. apply filter_filter_andb.
Qed.

(** X8. Whatever the query and the type, filtering a filtered collection
    again changes nothing, filtering a concatenation is concatenating the
    filtered parts, and every resource of the result is one of the
    collection. *)
Theorem fetchResources_then_narrows (q t : jsstring) :
  (forall R, fetchResources_then q t (fetchResources_then q t R)
             = fetchResources_then q t R) /\
  (forall R1 R2, fetchResources_then q t (R1 ++ R2)
                 = fetchResources_then q t R1 ++ fetchResources_then q t R2) /\
  (forall R r, In r (fetchResources_then q t R) -> In r R).
Proof.
  destruct (fetchResources_then_filter q t) as [keep E].
  split; [|split].
  - intros R. rewrite !E. apply filter_twice.
  - intros R1 R2. rewrite !E. apply filter_app.
  - intros R r. rewrite E, filter_In. tauto.
Qed.

End FilterComposition.

Lemma fetchResources_then_query_and_type_example :
  exists keep : Resource -> bool,
    (forall r, keep r = true
               <-> QueryMatches (host := asciiHost) (lit "REPORT") r
                   /\ EqualsCI (host := asciiHost) (or_empty (type r)) (lit "Doc")) /\
    fetchResources_then (host := asciiHost) (lit "REPORT") (lit "Doc")
      [solarGuide; windReport] = filter keep [solarGuide; windReport].
Proof.
  apply (@fetchResources_then_query_and_type asciiHost
           [solarGuide; windReport] (lit "REPORT") (lit "Doc"));
    discriminate.
Defined.

(** ** The home page, type buttons *)

Lemma home_show_shown v R p c :
  resultsDiv p = Some c ->
  home_show v (Fulfilled R) p = (set_resultsDiv (shown v R) p, Normal tt).
Proof.
  intros H. unfold home_show, shown. rewrite H.
  rewrite (renderResourceList_prior v (Some R) c []).
  now destruct (renderResourceList v (Some R) []) as [c' [u|e]].
Qed.

Section HomeProperties.
Context {host : Host}.

(** X10. Once the data is cached, a click on a type button of the GitHub
    Pages script makes no fetch and leaves no call waiting: the results
    container at once shows the cached collection filtered by the trimmed
    input and the type of the button, or the failure message when rendering
    throws. *)
Theorem typeSelect_click_cached (p : HomePage) (R : list Resource)
    (c : list Node) (dataset_type : option jsstring) :
  cachedData (world p) = Some R ->
  resultsDiv p = Some c ->
  let p' := fst (typeSelect_click (Some dataset_type) p) in
  world p' = world p /\
  waiting p' = waiting p /\
  resultsDiv p'
  = Some (shown Pages (fetchResources_then (trim (value p))
                         (or_empty dataset_type) R)).
Proof.
  intros HR Hc p'. subst p'. unfold typeSelect_click, getData_begin.
  rewrite HR.
  rewrite (@home_show_shown Pages _ _ c) by exact Hc.
  cbn. repeat split.
Qed.

(** X9. The guard against an empty query is on the search button only. With
    the search input blank, a click on a type button of the GitHub Pages
    script fetches when nothing is cached, and with the data cached a click
    on a button without [data-type] shows the rendering of the whole
    collection. *)
Theorem typeSelect_click_blank_query (p : HomePage) (c : list Node) :
  trim (value p) = [] ->
  resultsDiv p = Some c ->
  (cachedData (world p) = None ->
   forall dataset_type,
     let p' := fst (typeSelect_click (Some dataset_type) p) in
     fetches (world p') = S (fetches (world p)) /\
     waiting p' = waiting p ++ [([], or_empty dataset_type)]) /\
  (forall R,
      cachedData (world p) = Some R ->
      resultsDiv (fst (typeSelect_click (Some None) p)) = Some (shown Pages R)).
Proof.
  intros Hq Hc. split.
  - intros Hn dataset_type. unfold typeSelect_click, getData_begin.
    rewrite Hn, Hq. cbn. now split.
  - intros R HR. unfold typeSelect_click, getData_begin. rewrite HR, Hq.
    rewrite (@home_show_shown Pages _ _ c) by exact Hc. reflexivity.
Qed.

Lemma typeSelect_settle_nth_fulfilled p c k q t data :
  resultsDiv p = Some c ->
  nth_error (waiting p) k = Some (q, t) ->
  typeSelect_settle_nth k (Fulfilled data) p
  = (set_resultsDiv (shown Pages (fetchResources_then q t data))
       (set_world (fst (getData_resume (Fulfilled data) (world p)))
          (firstn k (waiting p) ++ skipn (S k) (waiting p)) p),
     Normal tt).
Proof.
  intros Hc Hk. unfold typeSelect_settle_nth. rewrite Hk.
  cbn [getData_resume fst].
  now rewrite (@home_show_shown Pages _ _ c) by exact Hc.
Qed.

(** X11. Answers that arrive out of order: when two calls wait and the
    later one is answered first, the results container ends with the
    result of the earlier click, filtered from the answer that came last,
    and that answer is the one left in the cache. *)
Theorem typeSelect_last_answer_wins (p : HomePage) (c : list Node)
    (q1 t1 q2 t2 : jsstring) (data2 data1 : list Resource) :
  resultsDiv p = Some c ->
  waiting p = [(q1, t1); (q2, t2)] ->
  let p1 := fst (typeSelect_settle_nth 1 (Fulfilled data2) p) in
  let p2 := fst (typeSelect_settle_nth 0 (Fulfilled data1) p1) in
  resultsDiv p1 = Some (shown Pages (fetchResources_then q2 t2 data2)) /\
  resultsDiv p2 = Some (shown Pages (fetchResources_then q1 t1 data1)) /\
  cachedData (world p2) = Some data1 /\
  waiting p2 = [].
Proof.
  intros Hc Hw p1 p2.
  assert (E1 : p1 = set_resultsDiv (shown Pages (fetchResources_then q2 t2 data2))
                 (set_world (fst (getData_resume (Fulfilled data2) (world p)))
                    [(q1, t1)] p)).
  { subst p1.
    rewrite (@typeSelect_settle_nth_fulfilled p c 1 q2 t2 data2 Hc)
      by (now rewrite Hw).
    now rewrite Hw. }
  assert (E2 : p2 = set_resultsDiv (shown Pages (fetchResources_then q1 t1 data1))
                 (set_world (fst (getData_resume (Fulfilled data1) (world p1)))
                    [] p1)).
  { subst p2.
    rewrite (@typeSelect_settle_nth_fulfilled p1 _ 0 q1 t1 data1)
      by (rewrite E1; reflexivity).
    now rewrite E1. }
  split; [now rewrite E1|]. rewrite E2. repeat split.
Qed.

End HomeProperties.

Lemma typeSelect_click_cached_example :
  let p' := fst (typeSelect_click (host := asciiHost) (Some (Some (lit "doc")))
                   cachedHome) in
  world p' = world cachedHome /\
  waiting p' = waiting cachedHome /\
  resultsDiv p'
  = Some (shown Pages (fetchResources_then (host := asciiHost)
                         (trim (value cachedHome))
                         (or_empty (Some (lit "doc")))
                         [solarGuide; windReport])).
Proof.
  apply (@typeSelect_click_cached asciiHost cachedHome
           [solarGuide; windReport] [] (Some (lit "doc"))); reflexivity.
Defined.

Lemma typeSelect_click_blank_query_example :
  let p' := fst (typeSelect_click (host := asciiHost) (Some (Some (lit "pdf")))
                   blankHome) in
  fetches (world p') = S (fetches (world blankHome)) /\
  waiting p' = waiting blankHome ++ [([], or_empty (Some (lit "pdf")))].
Proof.
  apply (proj1 (@typeSelect_click_blank_query asciiHost blankHome
                  [Html (lit "<p>old</p>")] eq_refl eq_refl)
           eq_refl (Some (lit "pdf"))).
Defined.

Lemma typeSelect_last_answer_wins_example :
  let p := set_world (world blankHome)
             [(lit "zon", lit "pdf"); (lit "wind", lit "doc")] blankHome in
  let p1 := fst (typeSelect_settle_nth (host := asciiHost) 1
                   (Fulfilled [solarGuide; windReport]) p) in
  let p2 := fst (typeSelect_settle_nth (host := asciiHost) 0
                   (Fulfilled [solarGuide]) p1) in
  resultsDiv p1
  = Some (shown Pages (fetchResources_then (host := asciiHost)
                         (lit "wind") (lit "doc") [solarGuide; windReport])) /\
  resultsDiv p2
  = Some (shown Pages (fetchResources_then (host := asciiHost)
                         (lit "zon") (lit "pdf") [solarGuide])) /\
  cachedData (world p2) = Some [solarGuide] /\
  waiting p2 = [].
Proof.
  apply (@typeSelect_last_answer_wins asciiHost
           (set_world (world blankHome)
              [(lit "zon", lit "pdf"); (lit "wind", lit "doc")] blankHome)
           [Html (lit "<p>old</p>")]); reflexivity.
Defined.

(** ** The home page, search button *)

Lemma classList_remove_In c l x :
  In x (classList_remove c l) <-> In x l /\ x <> c.
Proof.
  unfold classList_remove. rewrite filter_In, negb_true_iff.
  split; intros [H1 H2]; (split; [exact H1|]).
  - intros ->. assert (jsstring_eqb c c = true) by now apply jsstring_eqb_eq.
    congruence.
  - destruct (jsstring_eqb x c) eqn:E; [|reflexivity].
    apply jsstring_eqb_eq in E. contradiction.
Qed.

Lemma classList_remove_twice c l :
  classList_remove c (classList_remove c l) = classList_remove c l.
Proof. apply filter_twice. Qed.

(** X12. When the search input holds something besides white space and the
    type selector and the results container exist, a click on the search
    button takes the class [hidden], and no other class, off the type
    selector, empties the results container and makes no fetch; a second
    click changes nothing more. *)
Theorem searchBtn_click_with_term (p : HomePage) (cl : list jsstring)
    (c : list Node) :
  forallb isWhiteSpace (value p) = false ->
  typeSelect p = Some cl ->
  resultsDiv p = Some c ->
  let p' := fst (searchBtn_click p) in
  snd (searchBtn_click p) = Normal tt /\
  (exists cl',
      typeSelect p' = Some cl' /\
      ~ In (lit "hidden") cl' /\
      (forall x, x <> lit "hidden" -> (In x cl' <-> In x cl))) /\
  resultsDiv p' = Some [] /\
  world p' = world p /\
  waiting p' = waiting p /\
  searchBtn_click p' = (p', Normal tt).
Proof.
  intros Hv Ht Hc p'.
  assert (Hq : truthy (trim (value p)) = true).
  { apply truthy_true. intros E. apply trim_nil in E. congruence. }
  assert (E : searchBtn_click p
              = (set_resultsDiv []
                   (set_typeSelect (classList_remove (lit "hidden") cl) p),
                 Normal tt)).
  { unfold searchBtn_click. rewrite Hq, Ht. cbn [negb set_typeSelect resultsDiv].
    now rewrite Hc. }
  subst p'. rewrite E. cbn [fst snd].
  split; [reflexivity|]. split.
  { exists (classList_remove (lit "hidden") cl). split; [reflexivity|]. split.
    - intros H. apply classList_remove_In in H. now destruct H.
    - intros x Hx. rewrite classList_remove_In. tauto. }
  split; [reflexivity|]. split; [reflexivity|]. split; [reflexivity|].
  unfold searchBtn_click.
  cbn [value set_resultsDiv set_typeSelect typeSelect resultsDiv].
  rewrite Hq. cbn [negb]. now rewrite classList_remove_twice.
Qed.

Lemma searchBtn_click_with_term_example :
  let p := set_typeSelect [lit "types"; lit "hidden"] cachedHome in
  let p' := fst (searchBtn_click p) in
  snd (searchBtn_click p) = Normal tt /\
  (exists cl',
      typeSelect p' = Some cl' /\
      ~ In (lit "hidden") cl' /\
      (forall x, x <> lit "hidden"
                 -> (In x cl' <-> In x [lit "types"; lit "hidden"]))) /\
  resultsDiv p' = Some [] /\
  world p' = world p /\
  waiting p' = waiting p /\
  searchBtn_click p' = (p', Normal tt).
Proof.
  apply (@searchBtn_click_with_term
           (set_typeSelect [lit "types"; lit "hidden"] cachedHome)
           [lit "types"; lit "hidden"] []); reflexivity.
Defined.

(** ** The resources page, buttons *)

Lemma nth_error_update_nth (A : Type) (f : A -> A) i j (l : list A) :
  nth_error (update_nth f i l) j
  = if Nat.eqb j i then option_map f (nth_error l j) else nth_error l j.
Proof.
  revert i j. induction l as [|x l IH]; intros [|i] [|j]; cbn; try reflexivity.
  - now destruct (Nat.eqb j i).
  - apply IH.
Qed.

Lemma update_nth_length (A : Type) (f : A -> A) i (l : list A) :
  List.length (update_nth f i l) = List.length l.
Proof.
  revert i. induction l as [|x l IH]; intros [|i]; cbn; try reflexivity.
  now rewrite IH.
Qed.

Lemma classList_add_In c l : In c (classList_add c l).
Proof.
  unfold classList_add. destruct (Array_includes l c) eqn:E.
  - now apply Array_includes_In.
  - apply in_app_iff. right. now left.
Qed.

(** X13. After a click on a button of the filter container, that button
    carries the class [active] and no other button of the container does,
    whatever classes the buttons carried before; no button is added or
    removed. *)
Theorem filterDiv_click_one_active `{Host} (v : Variant) (p : ResourcesPage)
    (R : list Resource) (buttons : list Button) (i : nat) (btn : Button) :
  listener p = Some R ->
  filterDiv p = Some buttons ->
  nth_error buttons i = Some btn ->
  exists buttons',
    filterDiv (fst (filterDiv_click v (Some i) p)) = Some buttons' /\
    List.length buttons' = List.length buttons /\
    forall j b,
      nth_error buttons' j = Some b ->
      (In (lit "active") (classList b) <-> j = i).
Proof.
  intros HR Hb Hi.
  exists (update_nth activate i (map deactivate buttons)). split.
  { unfold filterDiv_click. rewrite HR, Hb, Hi.
    destruct (listDiv p) as [c|]; [|reflexivity].
    now destruct (renderResourceList v _ c). }
  split; [now rewrite update_nth_length, length_map|].
  intros j b. rewrite nth_error_update_nth, nth_error_map.
  destruct (Nat.eqb_spec j i) as [-> | Hne].
  - rewrite Hi. cbn [option_map]. intros [= <-]. split; [reflexivity|].
    intros _. apply classList_add_In.
  - destruct (nth_error buttons j) as [b0|]; [|discriminate].
    cbn [option_map]. intros [= <-]. cbn [deactivate classList]. split.
    + intros Hin. apply classList_remove_In in Hin. now destruct Hin.
    + intros ->. contradiction.
Qed.

Lemma filterDiv_click_one_active_example :
  exists buttons',
    filterDiv (fst (filterDiv_click (host := asciiHost) Pages (Some 2)
                      {| listDiv := Some [];
                         filterDiv := Some [allBtn; tagButton (lit "energy");
                                            tagButton (lit "policy")];
                         listener := Some [solarGuide; windReport] |}))
    = Some buttons' /\
    List.length buttons' = 3 /\
    forall j b,
      nth_error buttons' j = Some b ->
      (In (lit "active") (classList b) <-> j = 2).
Proof.
  apply (@filterDiv_click_one_active asciiHost Pages
           {| listDiv := Some [];
              filterDiv := Some [allBtn; tagButton (lit "energy");
                                 tagButton (lit "policy")];
              listener := Some [solarGuide; windReport] |}
           [solarGuide; windReport]
           [allBtn; tagButton (lit "energy"); tagButton (lit "policy")]
           2 (tagButton (lit "policy"))); reflexivity.
Defined.

Lemma forallb_false_split (A : Type) (f : A -> bool) (l : list A) :
  forallb f l = false ->
  exists l1 x l2, l = l1 ++ x :: l2 /\ forallb f l1 = true /\ f x = false.
Proof.
  induction l as [|a l IH]; [discriminate|].
  cbn [forallb]. destruct (f a) eqn:E; cbn [andb].
  - intros H. destruct (IH H) as (l1 & x & l2 & -> & H1 & Hx).
    exists (a :: l1), x, l2. cbn [forallb]. now rewrite E, H1.
  - intros _. now exists [], a, l.
Qed.

(** X14. When some resource of the fetched collection makes the renderer
    throw, [initResources] shows the message that the resources cannot be
    loaded; the filter buttons have been appended by then, but the click
    listener is not registered, so clicks on them change nothing. *)
Theorem initResources_render_failure `{Host} (v : Variant) (R : list Resource)
    (c : list Node) (buttons : list Button) :
  forallb renderable R = false ->
  let start := {| listDiv := Some c; filterDiv := Some buttons;
                  listener := None |} in
  let p' := fst (initResources v (Fulfilled R) start) in
  snd (initResources v (Fulfilled R) start) = Normal tt /\
  listDiv p' = Some [Html loadFailed] /\
  filterDiv p' = Some ((buttons ++ [allBtn]) ++ map tagButton (distinctTags R)) /\
  listener p' = None /\
  (forall target, filterDiv_click v target p' = (p', Normal tt)).
Proof.
  intros Hbad start p'.
  destruct (forallb_false_split _ _ Hbad) as (l1 & bad & l2 & -> & H1 & Hx).
  destruct (appendCards_until v l1 bad l2 (set_innerHTML []) H1 Hx)
    as [cards [E _]].
  assert (Er : renderResourceList v (Some (l1 ++ bad :: l2)) c
               = (set_innerHTML [] ++ cards, Throw URIError)).
  { unfold renderResourceList. now destruct l1. }
  assert (Ei : initResources v (Fulfilled (l1 ++ bad :: l2)) start
               = ({| listDiv := Some [Html loadFailed];
                     filterDiv := Some ((buttons ++ [allBtn])
                                        ++ map tagButton
                                             (distinctTags (l1 ++ bad :: l2)));
                     listener := None |}, Normal tt)).
  { unfold initResources, initResources_then, start.
    cbn [filterDiv listDiv listener]. rewrite Er. reflexivity. }
  subst p'. rewrite Ei. cbn [fst snd].
  repeat split.
Qed.

Lemma initResources_render_failure_example :
  let start := {| listDiv := Some []; filterDiv := Some [];
                  listener := None |} in
  let p' := fst (initResources Pages (Fulfilled [solarGuide; loneSurrogateFile])
                   start) in
  snd (initResources Pages (Fulfilled [solarGuide; loneSurrogateFile]) start)
  = Normal tt /\
  listDiv p' = Some [Html loadFailed] /\
  filterDiv p'
  = Some (([] ++ [allBtn])
          ++ map tagButton (distinctTags [solarGuide; loneSurrogateFile])) /\
  listener p' = None /\
  (forall target,
      filterDiv_click (host := asciiHost) Pages target p' = (p', Normal tt)).
Proof.
  apply (@initResources_render_failure asciiHost Pages
           [solarGuide; loneSurrogateFile] [] []). reflexivity.
Defined.

(** X15. A tag that is the empty string gets a button like any other tag,
    but a click on it shows the whole collection, as the button [Alle] does,
    and not the resources that carry the empty tag. *)
Theorem empty_tag_button_shows_all `{Host} (v : Variant) (R : list Resource) :
  (exists r, In r R /\ In [] (or_nil (tags r))) ->
  In (tagButton []) (map tagButton (distinctTags R)) /\
  forall c buttons i btn,
    nth_error buttons i = Some btn ->
    dataset_tag btn = Some [] ->
    listDiv (fst (filterDiv_click v (Some i)
                    {| listDiv := Some c; filterDiv := Some buttons;
                       listener := Some R |}))
    = Some (fst (renderResourceList v (Some R) [])).
Proof.
  intros Hin. split.
  - apply in_map. now apply distinctTags_In.
  - intros c buttons i btn Hi Ht.
    assert (H0 : Registered R (map dataset_tag buttons)
                   {| listDiv := Some c; filterDiv := Some buttons;
                      listener := Some R |}).
    { split; [reflexivity|]. split; [now exists c|]. now exists buttons. }
    rewrite (filterDiv_click_shows v (tag := Some []) i H0)
      by (rewrite nth_error_map, Hi; cbn; now rewrite Ht).
    reflexivity.
Qed.

Lemma empty_tag_button_shows_all_example :
  In (tagButton []) (map tagButton (distinctTags [untagged; solarGuide])) /\
  forall c buttons i btn,
    nth_error buttons i = Some btn ->
    dataset_tag btn = Some [] ->
    listDiv (fst (filterDiv_click (host := asciiHost) Pages (Some i)
                    {| listDiv := Some c; filterDiv := Some buttons;
                       listener := Some [untagged; solarGuide] |}))
    = Some (fst (renderResourceList Pages (Some [untagged; solarGuide]) [])).
Proof.
  apply (@empty_tag_button_shows_all asciiHost Pages [untagged; solarGuide]).
  exists untagged. split; now left.
Defined.

(** ** The cache, under any interleaving *)

Lemma step_cached w ev :
  cachedData w <> None ->
  fetches (step w ev) = fetches w /\ cachedData (step w ev) <> None.
Proof.
  intros H. destruct ev as [|net]; cbn [step].
  - unfold getData_begin. destruct (cachedData w) eqn:E; [|contradiction].
    cbn [fst]. now rewrite E.
  - destruct (suspended w); [now split|].
    destruct net; cbn; [split; [reflexivity | discriminate] | now split].
Qed.

(** X16. Once the cache holds a collection, no call of [getData] ever issues
    a fetch again and the cache never becomes empty again, however calls and
    answers interleave from then on. *)
Theorem getData_no_fetch_once_cached (w : World) (evs : list Event) :
  cachedData w <> None ->
  fetches (run evs w) = fetches w /\ cachedData (run evs w) <> None.
Proof.
  unfold run. revert w. induction evs as [|ev evs IH]; intros w H; cbn [fold_left].
  - now split.
  - destruct (step_cached w ev H) as [Hf Hc].
    destruct (IH (step w ev) Hc) as [Hf' Hc']. split; [congruence | exact Hc'].
Qed.

Lemma getData_no_fetch_once_cached_example :
  fetches (run [Call; Settle Rejected; Call; Settle (Fulfilled [solarGuide]); Call]
             {| cachedData := Some [windReport]; fetches := 2; suspended := 1 |})
  = 2 /\
  cachedData (run [Call; Settle Rejected; Call; Settle (Fulfilled [solarGuide]); Call]
                {| cachedData := Some [windReport]; fetches := 2; suspended := 1 |})
  <> None.
Proof.
  apply (@getData_no_fetch_once_cached
           {| cachedData := Some [windReport]; fetches := 2; suspended := 1 |}).
  discriminate.
Defined.

Lemma run_counts evs w :
  fetches (run evs w) <= fetches w + callsIn evs /\
  fetches w <= fetches (run evs w) /\
  suspended (run evs w) + fetches w <= suspended w + fetches (run evs w).
Proof.
  unfold run, callsIn. revert w.
  induction evs as [|ev evs IH]; intros w; cbn [fold_left filter].
  - cbn. lia.
  - specialize (IH (step w ev)). destruct ev as [|net]; cbn [List.length].
    + cbn [step] in *. unfold getData_begin in *.
      destruct (cachedData w); cbn [fst fetches suspended] in *; lia.
    + cbn [step] in *. destruct (suspended w) eqn:Es; [lia|].
      destruct net; cbn [getData_resume fst fetches suspended] in *;
        rewrite Es in *; cbn [pred] in *; lia.
Qed.

(** X17. From the empty cache, however calls and answers interleave, there
    are never more fetches than calls of [getData], and never more
    invocations suspended than fetches issued. *)
Theorem getData_fetches_bounded (evs : list Event) :
  fetches (run evs initialWorld) <= callsIn evs /\
  suspended (run evs initialWorld) <= fetches (run evs initialWorld).
Proof.
  destruct (run_counts evs initialWorld) as (H1 & H2 & H3).
  cbn [initialWorld fetches suspended] in *. lia.
Qed.

Lemma getData_calls_rejected n k :
  getData_calls (repeat Rejected n)
    {| cachedData := None; fetches := k; suspended := 0 |}
  = ({| cachedData := None; fetches := n + k; suspended := 0 |},
     repeat Rejected n).
Proof.
  revert k. induction n as [|n IH]; intros k; [reflexivity|].
  cbn [repeat getData_calls].
  change (getData Rejected {| cachedData := None; fetches := k; suspended := 0 |})
    with ({| cachedData := None; fetches := S k; suspended := 0 |},
          @Rejected (list Resource)).
  cbv beta iota. rewrite IH. now rewrite Nat.add_succ_r.
Qed.

(** X18. A failed fetch is not remembered: [n] calls of [getData] in a row
    whose fetch or parse fails issue [n] fetches, each call is rejected, and
    the cache stays empty. *)
Theorem getData_failures_refetch (n : nat) :
  getData_calls (repeat Rejected n) initialWorld
  = ({| cachedData := None; fetches := n; suspended := 0 |}, repeat Rejected n).
Proof.
  unfold initialWorld. rewrite getData_calls_rejected. now rewrite Nat.add_0_r.
Qed.

(** ** Which controller a page gets *)

Lemma split_not_nil sep s : split sep s <> [].
Proof.
  destruct s as [|c s]; cbn [split]; [discriminate|].
  destruct (N.eqb c sep); [discriminate|].
  destruct (split sep s); discriminate.
Qed.

Lemma split_app sep a b :
  split sep (a ++ sep :: b) = split sep a ++ split sep b.
Proof.
  induction a as [|c a IH]; cbn [app split].
  - now rewrite N.eqb_refl.
  - rewrite IH. destruct (N.eqb c sep); [reflexivity|].
    pose proof (split_not_nil sep a) as Hn.
    destruct (split sep a) as [|seg segs]; [contradiction | reflexivity].
Qed.

Lemma pop_app l1 l2 : l2 <> [] -> pop (l1 ++ l2) = pop l2.
Proof.
  intros H. induction l1 as [|x l1 IH]; [reflexivity|].
  cbn [app pop]. rewrite IH.
  destruct (l1 ++ l2) eqn:E; [|reflexivity].
  apply app_eq_nil in E. now destruct E.
Qed.

Lemma split_no_sep sep s : noneOf [sep] s = true -> split sep s = [s].
Proof.
  induction s as [|c s IH]; [reflexivity|].
  unfold noneOf. cbn [forallb existsb]. fold (noneOf [sep] s).
  rewrite orb_false_r, andb_true_iff, negb_true_iff. intros [Hc Hs].
  cbn [split]. now rewrite Hc, (IH Hs).
Qed.

Lemma pageOf_after_slash dir rest : pageOf (dir ++ SLASH :: rest) = pageOf rest.
Proof.
  unfold pageOf. rewrite split_app, pop_app by apply split_not_nil. reflexivity.
Qed.

Lemma pageOf_not_nil path : pageOf path <> [].
Proof.
  unfold pageOf. destruct (or_empty (pop (split SLASH path))); discriminate.
Qed.

(** X19. The GitHub Pages script chooses the controller by the last segment
    of the path alone, so it works under any directory: what stands before
    the last slash does not matter. A path that ends in a slash gets the home
    controller; a last segment gets the home controller exactly when it is
    empty or [index.html], and the resources controller exactly when it is
    [resources.html]. The page name the script computes is never empty. *)
Theorem dispatch_Pages_by_last_segment :
  (forall path, pageOf path <> []) /\
  (forall dir rest, dispatch_Pages (dir ++ SLASH :: rest) = dispatch_Pages rest) /\
  (forall dir, dispatch_Pages (dir ++ [SLASH]) = Some HomeController) /\
  (forall seg,
      noneOf [SLASH] seg = true ->
      (dispatch_Pages seg = Some HomeController
       <-> seg = [] \/ seg = lit "index.html") /\
      (dispatch_Pages seg = Some ResourcesController
       <-> seg = lit "resources.html")).
Proof.
  split; [exact pageOf_not_nil|].
  assert (D : forall dir rest,
             dispatch_Pages (dir ++ SLASH :: rest) = dispatch_Pages rest).
  { intros dir rest. unfold dispatch_Pages. now rewrite pageOf_after_slash. }
  split; [exact D|].
  split; [intros dir; now rewrite D|].
  intros seg Hs.
  assert (P : pageOf seg = if truthy seg then seg else lit "index.html").
  { unfold pageOf. now rewrite (split_no_sep SLASH seg Hs). }
  unfold dispatch_Pages. rewrite P. destruct seg as [|c seg].
  - cbn. split; split; try discriminate; [now left | reflexivity].
  - cbn [truthy].
    destruct (jsstring_eqb (c :: seg) (lit "index.html")) eqn:E1.
    + apply jsstring_eqb_eq in E1. rewrite E1. cbn.
      split; split; try discriminate; [now right | reflexivity].
    + cbn [orb].
      assert (E0 : jsstring_eqb (c :: seg) [] = false) by reflexivity.
      rewrite E0.
      destruct (jsstring_eqb (c :: seg) (lit "resources.html")) eqn:E2.
      * apply jsstring_eqb_eq in E2. rewrite E2.
        split; split; try discriminate; try reflexivity.
        intros [H | H]; discriminate H.
      * split; split; try discriminate.
        -- intros [H | H]; [discriminate H|].
           apply jsstring_eqb_eq in H. congruence.
        -- intros H. apply jsstring_eqb_eq in H. congruence.
Qed.

Example dispatch_Pages_project_site :
  dispatch_Pages (lit "/duurzame-kennisbank/") = Some HomeController /\
  dispatch_Pages (lit "/duurzame-kennisbank/resources.html")
  = Some ResourcesController /\
  dispatch_Pages (lit "/duurzame-kennisbank/upload.html") = None /\
  dispatch_Backend (lit "/duurzame-kennisbank/") = None.
Proof. repeat split. Qed.

(** X20. src/script.js chooses the controller by the whole path: the home
    controller for exactly [/] and [/index.html], the upload controller for
    every path that starts with [/upload], and the resources controller for
    every path that starts with [/resources]. *)
Theorem dispatch_Backend_by_prefix :
  (forall path,
      dispatch_Backend path = Some HomeController
      <-> path = lit "/" \/ path = lit "/index.html") /\
  (forall rest, dispatch_Backend (lit "/upload" ++ rest) = Some UploadController) /\
  (forall rest,
      dispatch_Backend (lit "/resources" ++ rest) = Some ResourcesController).
Proof.
  split; [|split].
  - intros path. unfold dispatch_Backend.
    destruct (jsstring_eqb path (lit "/")) eqn:E1.
    { apply jsstring_eqb_eq in E1. split; [now left | reflexivity]. }
    destruct (jsstring_eqb path (lit "/index.html")) eqn:E2.
    { apply jsstring_eqb_eq in E2. split; [now right | reflexivity]. }
    cbn [orb]. split.
    + destruct (startsWith path (lit "/upload")); [discriminate|].
      destruct (startsWith path (lit "/resources")); discriminate.
    + intros [H | H]; apply jsstring_eqb_eq in H; congruence.
  - intros rest. unfold dispatch_Backend.
    assert (E1 : jsstring_eqb (lit "/upload" ++ rest) (lit "/") = false).
    { destruct (jsstring_eqb _ _) eqn:E; [|reflexivity].
      apply jsstring_eqb_eq in E. discriminate E. }
    assert (E2 : jsstring_eqb (lit "/upload" ++ rest) (lit "/index.html") = false).
    { destruct (jsstring_eqb _ _) eqn:E; [|reflexivity].
      apply jsstring_eqb_eq in E. discriminate E. }
    rewrite E1, E2. reflexivity.
  - intros rest. unfold dispatch_Backend.
    assert (E1 : jsstring_eqb (lit "/resources" ++ rest) (lit "/") = false).
    { destruct (jsstring_eqb _ _) eqn:E; [|reflexivity].
      apply jsstring_eqb_eq in E. discriminate E. }
    assert (E2 : jsstring_eqb (lit "/resources" ++ rest) (lit "/index.html") = false).
    { destruct (jsstring_eqb _ _) eqn:E; [|reflexivity].
      apply jsstring_eqb_eq in E. discriminate E. }
    rewrite E1, E2. reflexivity.
Qed.

(** ** The request of src/script.js *)

Lemma neverSerialised_spec c :
  neverSerialised c = true ->
  formKeeps c = false /\ c <> 37%N /\ c <> 43%N /\ (forall n, hexDigit n <> c).
Proof.
  unfold neverSerialised.
  rewrite !andb_true_iff, !negb_true_iff, orb_true_iff, andb_true_iff,
    !N.ltb_lt, !N.eqb_neq.
  intros [[[Hk H37] H43] Hr]. repeat split; try assumption.
  intros n. pose proof (hexDigit_range n). lia.
Qed.

Lemma urlencode_avoids c s : neverSerialised c = true -> ~ In c (urlencode s).
Proof.
  intros Hc. apply neverSerialised_spec in Hc.
  destruct Hc as (Hk & H37 & H43 & Hhex).
  unfold urlencode. intros H. apply in_flat_map in H.
  destruct H as [cp [_ H]]. unfold formEncode in H.
  destruct (N.eqb cp 32).
  - destruct H as [<- | []]. now apply H43.
  - destruct (formKeeps cp) eqn:Ek.
    + destruct H as [<- | []]. congruence.
    + apply In_percent in H. destruct H as [-> | [n ->]].
      * now apply H37.
      * now apply (Hhex n).
Qed.

Lemma noneOf_avoids bad s :
  (forall c, In c bad -> ~ In c s) -> noneOf bad s = true.
Proof.
  intros H. unfold noneOf. apply forallb_forall. intros x Hx.
  apply negb_true_iff. destruct (existsb (N.eqb x) bad) eqn:E; [|reflexivity].
  apply existsb_exists in E. destruct E as [y [Hy E]].
  apply N.eqb_eq in E. subst y. exfalso. exact (H x Hy Hx).
Qed.

Lemma urlencode_no_separator s :
  noneOf [AMP; 61; 35; 63; SLASH; 32]%N (urlencode s) = true.
Proof.
  apply noneOf_avoids. intros c Hc. apply urlencode_avoids.
  cbn [In] in Hc.
  destruct Hc as [<- | [<- | [<- | [<- | [<- | [<- | []]]]]]]; reflexivity.
Qed.

(** X21. The URL [fetchResources(q, type)] of src/script.js requests is
    [/api/resources?] followed by [q=] and the encoded query when the query
    is not empty, and by [type=] and the encoded type when the type is not
    empty, with one [&] between them when both are there. The encoded values
    hold no [&], [=], [#], [?], [/] or space, so the input cannot add a
    parameter or change the path. *)
Theorem resourcesUrl_parameters (q type : jsstring) :
  resourcesUrl q type
  = lit "/api/resources?"
    ++ (if truthy q then lit "q=" ++ urlencode q else [])
    ++ (if truthy q && truthy type then lit "&" else [])
    ++ (if truthy type then lit "type=" ++ urlencode type else []) /\
  noneOf [AMP; 61; 35; 63; SLASH; 32]%N (urlencode q) = true /\
  noneOf [AMP; 61; 35; 63; SLASH; 32]%N (urlencode type) = true.
Proof.
  split; [|split; apply urlencode_no_separator].
  unfold resourcesUrl, URLSearchParams_toString.
  destruct q as [|a q], type as [|b type]; cbn [truthy andb].
  - reflexivity.
  - cbn [URLSearchParams_set map join fst snd].
    change (urlencode (lit "type")) with (lit "type").
    reflexivity.
  - cbn [URLSearchParams_set map join fst snd].
    change (urlencode (lit "q")) with (lit "q").
    now rewrite !app_nil_r.
  - cbn [URLSearchParams_set].
    change (jsstring_eqb (lit "q") (lit "type")) with false.
    cbn [URLSearchParams_set map join fst snd].
    change (urlencode (lit "q")) with (lit "q").
    change (urlencode (lit "type")) with (lit "type").
    now rewrite <- !app_assoc.
Qed.

Example resourcesUrl_zon_en_wind :
  resourcesUrl (lit "zon & wind=1") (lit "pdf")
  = lit "/api/resources?q=zon+%26+wind%3D1&type=pdf" /\
  resourcesUrl [] [] = lit "/api/resources?" /\
  resourcesUrl [55296%N] [] = lit "/api/resources?q=%EF%BF%BD".
Proof. repeat split. Qed.

(** ** The upload form *)

Lemma form_settle_failed (A : Type) (net : Outcome (Response A)) p :
  uploadSucceeded net = false ->
  form_settle net p
  = {| fields := fields p; defaults := defaults p;
       msg_textContent := uploadFailed; msg_color := lit "red";
       posted := posted p; defaultPrevented := defaultPrevented p |}.
Proof.
  unfold uploadSucceeded, form_settle.
  destruct net as [[[|] [d|]]|]; cbn; try discriminate; reflexivity.
Qed.

Lemma upload_failures (A : Type) (evs : list (UploadEvent A)) p :
  allFailed evs = true ->
  fields (fold_left (@upload_step A) evs p) = fields p /\
  defaults (fold_left (@upload_step A) evs p) = defaults p /\
  posted (fold_left (@upload_step A) evs p)
  = posted p ++ repeat (fields p) (submitsIn evs).
Proof.
  unfold allFailed, submitsIn. revert p.
  induction evs as [|ev evs IH]; intros p; cbn [forallb fold_left filter].
  - intros _. cbn. now rewrite app_nil_r.
  - rewrite andb_true_iff. intros [Hev Hevs].
    destruct (IH (upload_step p ev) Hevs) as (F & D & P).
    destruct ev as [|net]; cbn [upload_step] in *.
    + cbn [form_submit fields defaults posted] in *.
      rewrite F, D, P. cbn [List.length repeat].
      now rewrite <- app_assoc.
    + apply negb_true_iff in Hev. rewrite (form_settle_failed net p Hev) in *.
      cbn [fields defaults posted] in *. now rewrite F, D, P.
Qed.

(** X22. As long as no upload goes through (every response is a network
    failure, not [ok], or not parsable), the fields of the form stay as the
    user left them however often the form is submitted, and every submit
    posts them again: nothing is de-duplicated. A response that is [ok] and
    parses resets the fields to their defaults and shows the success
    message; any other shows the failure message. *)
Theorem upload_form_kept_until_success (A : Type) (p : UploadPage) :
  (forall evs : list (UploadEvent A),
      allFailed evs = true ->
      fields (fold_left (@upload_step A) evs p) = fields p /\
      posted (fold_left (@upload_step A) evs p)
      = posted p ++ repeat (fields p) (submitsIn evs)) /\
  (forall net : Outcome (Response A),
      fields (form_settle net p)
      = (if uploadSucceeded net then defaults p else fields p) /\
      msg_textContent (form_settle net p)
      = (if uploadSucceeded net then uploadOk else uploadFailed) /\
      msg_color (form_settle net p)
      = (if uploadSucceeded net then lit "green" else lit "red")).
Proof.
  split.
  - intros evs H. destruct (upload_failures evs p H) as (F & _ & P). now split.
  - intros net. destruct (uploadSucceeded net) eqn:E.
    + unfold uploadSucceeded in E. unfold form_settle.
      destruct net as [[[|] [d|]]|]; cbn in *; try discriminate; repeat split.
    + rewrite (form_settle_failed net p E). repeat split.
Qed.

Example upload_twice_failing :
  let p := {| fields := [(lit "title", lit "Rapport")];
              defaults := [(lit "title", [])];
              msg_textContent := []; msg_color := [];
              posted := []; defaultPrevented := false |} in
  let p' := fold_left (@upload_step unit)
              [Submit; Settled Rejected; Submit;
               Settled (Fulfilled {| ok := false; json := Fulfilled tt |})] p in
  fields p' = [(lit "title", lit "Rapport")] /\
  List.length (posted p') = 2 /\
  msg_textContent p' = uploadFailed /\
  fields (form_settle (Fulfilled {| ok := true; json := Fulfilled tt |}) p')
  = [(lit "title", [])].
Proof. repeat split. Qed.

(** ** The home page of src/script.js *)

(** X23. On the home page of src/script.js the results container shows the
    rendering of exactly the collection the server answered, without any
    filtering in the browser, when the response is [ok] and its body parses;
    for a network failure, a response that is not [ok] (whatever its body)
    or a body that does not parse, it shows the search failure message. *)
Theorem home_show_Backend_response (p : HomePage) (c : list Node)
    (net : Outcome (Response (list Resource))) :
  resultsDiv p = Some c ->
  resultsDiv (fst (home_show Backend (fetchResources_Backend net) p))
  = Some (match net with
          | Fulfilled {| ok := true; json := Fulfilled data |} =>
              shown Backend data
          | _ => [Html searchFailed]
          end).
Proof.
  intros Hc. destruct net as [[[|] [data|]]|]; cbn [fetchResources_Backend ok json negb].
  - now rewrite (@home_show_shown Backend data p c Hc).
  - unfold home_show. now rewrite Hc.
  - unfold home_show. now rewrite Hc.
  - unfold home_show. now rewrite Hc.
  - unfold home_show. now rewrite Hc.
Qed.

Lemma home_show_Backend_response_example :
  resultsDiv (fst (home_show Backend
                     (fetchResources_Backend
                        (Fulfilled {| ok := false;
                                      json := Fulfilled [solarGuide] |}))
                     cachedHome))
  = Some [Html searchFailed].
Proof.
  apply (@home_show_Backend_response cachedHome []
           (Fulfilled {| ok := false; json := Fulfilled [solarGuide] |})).
  reflexivity.
Defined.
